(** * zepto.touchdb.js: a shallow embedding of the CouchDB client plugin

    The development follows [src/zepto.touchdb.js].  JavaScript values are
    modelled by small inductive types, the closure of [changes] by a record
    of its captured variables, the browser's event loop by the list of
    callbacks that are still pending, and caller-held objects by a heap of
    references.  Strings are byte strings holding UTF-8. *)

From Stdlib Require Import ZArith Lia Ascii.
From stdpp Require Import base option list gmap strings.

Local Open Scope Z_scope.

(** ** Strings: [split], [join], [encodeURIComponent] *)

Module Str.

(** [s.split(sep)] for a one-character separator: the segments between the
    occurrences of [sep]; never empty (the empty string has one segment). *)
Fixpoint split (sep : ascii) (s : string) : list string :=
  match s with
  | EmptyString => [EmptyString]
  | String c s' =>
      if Ascii.eqb c sep then EmptyString :: split sep s'
      else match split sep s' with
           | seg :: rest => String c seg :: rest
           | [] => [String c EmptyString]
           end
  end.

(** [parts.join(sep)]. *)
Definition join (sep : string) (parts : list string) : string :=
  String.concat sep parts.

(** The characters [encodeURIComponent] leaves alone:
    [A-Z a-z 0-9 - _ . ! ~ * ' ( )]. *)
Definition unreserved (c : ascii) : bool :=
  let n := Ascii.N_of_ascii c in
  ((65 <=? n) && (n <=? 90) || (97 <=? n) && (n <=? 122) ||
   (48 <=? n) && (n <=? 57) ||
   bool_decide (c ∈ ["-"; "_"; "."; "!"; "~"; "*"; "'"; "("; ")"]%char))%N.

Definition hex_digit (n : N) : ascii :=
  match String.get (N.to_nat n) "0123456789ABCDEF" with
  | Some c => c
  | None => "0"%char
  end.

(** One byte of the UTF-8 form: itself when unreserved, [%XX] otherwise. *)
Definition encode_byte (c : ascii) : string :=
  if unreserved c then String c EmptyString
  else
    let n := Ascii.N_of_ascii c in
    String "%" (String (hex_digit (n / 16)) (String (hex_digit (n mod 16)) EmptyString)).

Fixpoint encodeURIComponent (s : string) : string :=
  match s with
  | EmptyString => EmptyString
  | String c s' => encode_byte c +:+ encodeURIComponent s'
  end.

(** Reference notions used to state results, defined without [split]:
    the text before the first [sep], and the text after it. *)
Fixpoint before_first (sep : ascii) (s : string) : string :=
  match s with
  | EmptyString => EmptyString
  | String c s' => if Ascii.eqb c sep then EmptyString else String c (before_first sep s')
  end.

Fixpoint after_first (sep : ascii) (s : string) : string :=
  match s with
  | EmptyString => EmptyString
  | String c s' => if Ascii.eqb c sep then s' else after_first sep s'
  end.

Fixpoint occurs (c : ascii) (s : string) : bool :=
  match s with
  | EmptyString => false
  | String d s' => Ascii.eqb d c || occurs c s'
  end.

End Str.

(** ** [encodeDocId] (lines 45-52) *)

(** [parts[0]] is [head parts] ([None] for [undefined]); [parts.shift()]
    leaves [tail parts]. *)
Definition encodeDocId (docID : string) : string :=
  let parts := Str.split "/" docID in
  if bool_decide (head parts = Some "_design"%string) then
    let parts := tail parts in
    "_design/" +:+ Str.encodeURIComponent (Str.join "/" parts)
  else Str.encodeURIComponent docID.


(** ** JavaScript values *)

(** A parsed JSON text.  Numbers are the integers (sequence numbers, status
    codes, counts); an object is its list of properties in insertion order,
    one entry per name. *)
#[warnings="-register-all"]
Inductive json :=
| JNull
| JBool (b : bool)
| JNum (z : Z)
| JStr (s : string)
| JArr (items : list json)
| JObj (props : list (string * json)).

(** The functions that occur as property values: the closures the plugin
    creates itself, and functions handed in by the caller. *)
Inductive handler :=
| ChangesSuccess            (** [options.success] installed by [changes] *)
| ChangesError              (** [options.error] installed by [changes] *)
| InfoSuccess               (** the [success] passed to [db.info] by [changes] *)
| UuidSuccess               (** the [success] passed to [ajax] by [newUUID] *)
| Callback (id : nat).      (** a caller's function *)

Inductive value :=
| VUndefined
| VJson (j : json)
| VFun (h : handler).

(** An options object: its enumerable properties in insertion order. *)
Definition object := list (string * value).

(** What a [throw] carries. *)
Inductive thrown :=
| TypeError
| ParseMessage (errorMessage : string)               (** [errorMessage + ': ' + e] *)
| ReasonMessage (errorMessage : string) (reason : value). (** [errorMessage + ": " + resp.reason] *)

Module Js.

Definition is_empty (s : string) : bool :=
  match s with EmptyString => true | _ => false end.

(** ToBoolean. *)
Definition truthy (v : value) : bool :=
  match v with
  | VUndefined => false
  | VJson JNull => false
  | VJson (JBool b) => b
  | VJson (JNum z) => negb (z =? 0)
  | VJson (JStr s) => negb (is_empty s)
  | VJson (JArr _) | VJson (JObj _) => true
  | VFun _ => true
  end.

Fixpoint assoc {A} (name : string) (l : list (string * A)) : option A :=
  match l with
  | [] => None
  | (k, v) :: l' => if String.eqb k name then Some v else assoc name l'
  end.

(** [o[name]] on an options object. *)
Definition get (name : string) (o : object) : value :=
  match assoc name o with Some v => v | None => VUndefined end.

(** [o[name] = v]: an existing property keeps its place. *)
Fixpoint set (name : string) (v : value) (o : object) : object :=
  match o with
  | [] => [(name, v)]
  | (k, w) :: o' =>
      if String.eqb k name then (k, v) :: o' else (k, w) :: set name v o'
  end.

(** Zepto's [$.extend(target, source)]: copies every property of [source]
    whose value is not [undefined]. *)
Definition extend (target source : object) : object :=
  fold_left (fun t kv => match snd kv with
                         | VUndefined => t
                         | v => set (fst kv) v t
                         end) source target.

(** [resp.name] for a parsed body and a name that is no built-in property:
    [None] is the TypeError raised on [null]. *)
Definition field_json (name : string) (resp : json) : option (option json) :=
  match resp with
  | JNull => None
  | JObj props => Some (assoc name props)
  | _ => Some None
  end.

(** A JSON value or [undefined] ([None]) as a [value]. *)
Definition of_json (j : option json) : value :=
  match j with Some j => VJson j | None => VUndefined end.

Definition field (name : string) (resp : json) : option value :=
  of_json <$> field_json name resp.

(** [resp && resp.name || fallback], as [ajax] computes the error tag and
    the reason: [resp] is a parsed body, so the read cannot raise once
    [resp] is truthy. *)
Definition and_field_or (resp : json) (name : string) (fallback : string) : value :=
  let a := if truthy (VJson resp)
           then match field name resp with Some v => v | None => VUndefined end
           else VJson resp in
  if truthy a then a else VJson (JStr fallback).

End Js.

(** ** The [ajax] helper (lines 831-878) *)

(** The response handed to [complete]: its status and the outcome of
    [JSON.parse(req.responseText)], [None] when the text is no JSON. *)
Record xhr := { status : Z; parsed : option json }.

(** How [encodeOptions] renders one property: [key], [startkey] and
    [endkey] go through [toJSON] first. *)
Record param := { pname : string; as_json : bool; pvalue : value }.

(** The settings object given to [$.ajax], without the [complete] callback
    (kept apart in [request]): method, address, query string as the list of
    pairs [encodeOptions] writes out, body, and the [async] flag. *)
Record settings := {
  type : string;
  url : string;
  search : list param;
  data : value;
  async : bool
}.

(** A request handed to [$.ajax]: the settings, and what its [complete]
    callback closes over: the local copy of [options] and the message. *)
Record request := {
  sent : settings;
  req_options : object;
  req_errorMessage : string
}.

(** The argument lists of the calls [complete] makes. *)
Inductive args :=
| ParseFailure (status : Z)                                     (** [(req.status, req, e)] *)
| Start (resp : json)                                           (** [(resp)] *)
| Before (resp : json) (reqDuration : Z)                        (** [(req, resp, reqDuration)] *)
| Success (resp : json) (reqDuration : Z)                       (** [(resp, reqDuration)] *)
| Failure (status : Z) (error reason : value) (reqDuration : Z).

(** One statement of [complete]: a call of a property of [options], or a
    [throw].  A raised exception ends the callback. *)
Inductive statement :=
| Call (h : handler) (a : args)
| Throw (t : thrown).

Module Ajax.

(** [f(args)] for a property value that tested truthy. *)
Definition invoke (f : value) (a : args) : statement :=
  match f with
  | VFun h => Call h a
  | _ => Throw TypeError
  end.

(** [if (options.name) options.name(args)]. *)
Definition call_if_present (options : object) (name : string) (a : args) : list statement :=
  if Js.truthy (Js.get name options) then [invoke (Js.get name options) a] else [].

(** [req.status == options.successStatus], for a numeric [successStatus];
    the model gives other values no match. *)
Definition status_matches (status : Z) (expected : value) : bool :=
  match expected with
  | VJson (JNum z) => status =? z
  | _ => false
  end.

(** The [complete] callback (lines 851-876), as the statements it runs. *)
Definition complete (options : object) (errorMessage : string)
    (reqDuration : Z) (req : xhr) : list statement :=
  match parsed req with
  | None =>
      if Js.truthy (Js.get "error" options)
      then [invoke (Js.get "error" options) (ParseFailure (status req))]
      else [Throw (ParseMessage errorMessage)]
  | Some resp =>
      call_if_present options "ajaxStart" (Start resp) ++
      if status_matches (status req) (Js.get "successStatus" options) then
        call_if_present options "beforeSuccess" (Before resp reqDuration) ++
        call_if_present options "success" (Success resp reqDuration)
      else if Js.truthy (Js.get "error" options) then
        [invoke (Js.get "error" options)
           (Failure (status req)
              (Js.and_field_or resp "error" errorMessage)
              (Js.and_field_or resp "reason" "no response")
              reqDuration)]
      else
        [match Js.field "reason" resp with
         | Some v => Throw (ReasonMessage errorMessage v)
         | None => Throw TypeError
         end]
  end.

(** [ajax(obj, options, errorMessage)]: the request it hands to [$.ajax].
    [obj] already holds the defaults [type: "GET"] where the caller gave
    none. *)
Definition ajax (obj : settings) (options : object) (errorMessage : string) : request :=
  {| sent := obj;
     req_options := Js.extend [("successStatus"%string, VJson (JNum 200))] options;
     req_errorMessage := if Js.is_empty errorMessage then "Unknown error"%string
                         else errorMessage |}.

(** [complete] of a request, when its response arrives. *)
Definition on_complete (r : request) (reqDuration : Z) (req : xhr) : list statement :=
  complete (req_options r) (req_errorMessage r) reqDuration req.

Definition handler_names : list string :=
  ["error"; "success"; "beforeSuccess"; "ajaxStart"]%string.

Definition json_names : list string := ["key"; "startkey"; "endkey"]%string.

(** [encodeOptions] (lines 900-915): the pairs written to the query string,
    in enumeration order. *)
Definition encodeOptions (options : object) : list param :=
  omap (fun kv =>
          if bool_decide (fst kv ∈ handler_names) then None
          else Some {| pname := fst kv;
                       as_json := bool_decide (fst kv ∈ json_names);
                       pvalue := snd kv |})
       options.

(** The value a request carries for a query parameter. *)
Definition search_param (name : string) (r : request) : option value :=
  pvalue <$> List.find (fun p => String.eqb (pname p) name) (search (sent r)).

End Ajax.

(** ** The change feed: [changes] (lines 256-327) *)

(** A listener, as far as the subscription can tell: when called it may use
    the handle it closes over, calling [stop()] and registering further
    listeners with [onChange]; it returns normally. *)
#[warnings="-register-all"]
Inductive listener := Listener (id : nat) (stops : bool) (adds : list listener).

(** Callbacks the browser still owes the subscription: the [complete] of a
    request in flight, or [getChangesSince] under [setTimeout]. *)
Inductive task :=
| Pending (r : request)
| Timer (delay : Z).

(** The log of what the subscription does. *)
Inductive output :=
| Sent (r : request)                  (** [$.ajax] was called *)
| TimerSet (delay : Z)                (** [setTimeout(getChangesSince, delay)] *)
| Invoked (f : listener) (resp : json)(** [this(resp)] in [triggerListeners] *)
| Stopped                             (** [stop()] ran *)
| Registered (f : listener)           (** [onChange(f)] ran *)
| Hook (id : nat) (a : args)          (** a caller's [ajaxStart] or [beforeSuccess] ran *)
| Uncaught (t : thrown).              (** an exception left the callback *)

(** The variables the closures of [changes] share ([since], [timeout],
    [active], [listeners], [options], [db.uri]) and the pending tasks. *)
Record subscription := {
  since : value;
  timeout : Z;
  active : bool;
  listeners : list listener;
  options : object;
  uri : string;
  tasks : list task
}.

Inductive outcome := Normal | Raised (t : thrown) | OutOfFuel.

(** A piece of code run against the subscription. *)
Definition proc := subscription -> outcome * subscription * list output.

Module Feed.

Definition skip : proc := fun st => (Normal, st, []).

Definition seq (p q : proc) : proc := fun st =>
  match p st with
  | (Normal, st1, out1) =>
      match q st1 with (r, st2, out2) => (r, st2, out1 ++ out2) end
  | stopped => stopped
  end.

Declare Scope proc_scope.
Delimit Scope proc_scope with proc.
Bind Scope proc_scope with proc.
Notation "p ;; q" := (seq p q) (at level 100, q at level 200, right associativity) : proc_scope.
Local Open Scope proc_scope.

Definition emit (o : output) : proc := fun st => (Normal, st, [o]).
Definition modify (f : subscription -> subscription) : proc := fun st => (Normal, f st, []).
Definition raise (t : thrown) : proc := fun st => (Raised t, st, []).

Definition set_since (v : value) (st : subscription) : subscription :=
  {| since := v; timeout := timeout st; active := active st;
     listeners := listeners st; options := options st; uri := uri st;
     tasks := tasks st |}.

Definition set_timeout (t : Z) (st : subscription) : subscription :=
  {| since := since st; timeout := t; active := active st;
     listeners := listeners st; options := options st; uri := uri st;
     tasks := tasks st |}.

Definition set_active (b : bool) (st : subscription) : subscription :=
  {| since := since st; timeout := timeout st; active := b;
     listeners := listeners st; options := options st; uri := uri st;
     tasks := tasks st |}.

Definition set_listeners (l : list listener) (st : subscription) : subscription :=
  {| since := since st; timeout := timeout st; active := active st;
     listeners := l; options := options st; uri := uri st;
     tasks := tasks st |}.

Definition set_tasks (l : list task) (st : subscription) : subscription :=
  {| since := since st; timeout := timeout st; active := active st;
     listeners := listeners st; options := options st; uri := uri st;
     tasks := l |}.

(** [$.ajax(...)]: the request is in flight. *)
Definition send (r : request) : proc :=
  modify (fun st => set_tasks (tasks st ++ [Pending r]) st) ;; emit (Sent r).

(** [setTimeout(getChangesSince, delay)]. *)
Definition setTimeout (delay : Z) : proc :=
  modify (fun st => set_tasks (tasks st ++ [Timer delay]) st) ;; emit (TimerSet delay).

(** The handle: [onChange] (lines 271-273) and [stop] (lines 277-279). *)
Definition onChange (f : listener) : proc :=
  modify (fun st => set_listeners (listeners st ++ [f]) st) ;; emit (Registered f).

Definition stop : proc := modify (set_active false) ;; emit Stopped.

(** The weight of a listener: the calls it can cause in one delivery. *)
Fixpoint weight (f : listener) : nat :=
  match f with
  | Listener _ _ adds => S (list_sum (List.map weight adds))
  end.

Definition forest_weight (fs : list listener) : nat := list_sum (List.map weight fs).

(** [onChange] for each of [adds] in turn. *)
Definition register (adds : list listener) : proc :=
  foldr (fun g p => onChange g ;; p) skip adds.

(** [this(resp)]: the listener runs. *)
Definition call_listener (resp : json) (f : listener) : proc :=
  match f with
  | Listener _ stops adds =>
      emit (Invoked f resp) ;;
      (if stops then stop else skip) ;;
      register adds
  end.

(** Zepto's [$.each(listeners, callback)] on an array:
    [for (i = 0; i < elements.length; i++) callback.call(elements[i])]; the
    length is read anew each round, and the callback here never returns
    [false]. *)
Fixpoint each_from (fuel i : nat) (callback : listener -> proc) : proc := fun st =>
  match fuel with
  | O => (OutOfFuel, st, [])
  | S fuel' =>
      match listeners st !! i with
      | None => (Normal, st, [])
      | Some f => (callback f ;; each_from fuel' (S i) callback) st
      end
  end.

(** [triggerListeners] (lines 282-286). *)
Definition triggerListeners (resp : json) : proc := fun st =>
  each_from (S (forest_weight (listeners st))) 0 (call_listener resp) st.

(** The request [getChangesSince] builds (lines 305-313). *)
Definition poll_request (st : subscription) : request :=
  let opts :=
    Js.extend
      (Js.extend [("heartbeat"%string, VJson (JNum (10 * 1000)))] (options st))
      [("feed"%string, VJson (JStr "longpoll")); ("since"%string, since st)] in
  Ajax.ajax
    {| type := "GET"; url := uri st +:+ "_changes";
       search := Ajax.encodeOptions opts;
       data := VUndefined; async := true |}
    (options st)
    ("Error connecting to " +:+ uri st +:+ "/_changes.").

(** [getChangesSince] (lines 304-314). *)
Definition getChangesSince : proc := fun st => send (poll_request st) st.

(** [options.success] (lines 289-296). *)
Definition success (resp : json) : proc :=
  modify (set_timeout 100) ;;
  fun st =>
    if active st then
      ((match Js.field "last_seq" resp with
        | Some v => modify (set_since v)
        | None => raise TypeError
        end) ;;
       triggerListeners resp ;;
       getChangesSince) st
    else skip st.

(** [options.error] (lines 297-302). *)
Definition error : proc := fun st =>
  if active st then
    (setTimeout (timeout st) ;;
     modify (fun st => set_timeout (timeout st * 2) st)) st
  else skip st.

(** The [success] given to [db.info] (lines 320-323). *)
Definition info_success (info : json) : proc :=
  (match Js.field "update_seq" info with
   | Some v => modify (set_since v)
   | None => raise TypeError
   end) ;;
  getChangesSince.

(** The request of [db.info(options)] (lines 237-243). *)
Definition info_request (db_uri : string) (options : object) : request :=
  Ajax.ajax
    {| type := "GET"; url := db_uri; search := [];
       data := VUndefined; async := true |}
    options
    "Database information could not be retrieved".

Definition info (options : object) : proc := fun st =>
  send (info_request (uri st) options) st.

(** The options [changes] passes to [db.info] (lines 319-324). *)
Definition info_options : object := [("success"%string, VFun InfoSuccess)].

(** [changes(since, options)] on the database at [db_uri]; [None] is an
    omitted [options].  Returns the closure state once the first request
    has been handed to [$.ajax]. *)
Definition changes (db_uri : string) (since : value) (options : option object)
  : outcome * subscription * list output :=
  let options := default [] options in
  let options := Js.set "success" (VFun ChangesSuccess) options in
  let options := Js.set "error" (VFun ChangesError) options in
  let st := {| since := since; timeout := 100; active := true; listeners := [];
               options := options; uri := db_uri; tasks := [] |} in
  if Js.truthy since then getChangesSince st
  else info info_options st.

(** Running a statement of [complete] against the subscription.  A caller's
    [ajaxStart] or [beforeSuccess] is logged; it is taken to return
    normally and to leave the handle alone.  A closure is only ever called
    through the property it was installed under, so the other pairings of
    closure and arguments do not arise. *)
Definition dispatch (s : statement) : proc :=
  match s with
  | Throw t => raise t
  | Call ChangesSuccess (Success resp _) => success resp
  | Call ChangesError _ => error
  | Call InfoSuccess (Success info _) => info_success info
  | Call (Callback id) a => emit (Hook id a)
  | Call _ _ => skip
  end.

Definition run_statements (l : list statement) : proc :=
  foldr (fun s p => dispatch s ;; p) skip l.

(** What the caller and the browser can do to a subscription. *)
Inductive event :=
| CallStop
| CallOnChange (f : listener)
| Response (k : nat) (req : xhr) (reqDuration : Z)
| TimerFired (k : nat).

(** A callback run from the event loop: an exception that leaves it is
    reported and ends it. *)
Definition toplevel (p : proc) (st : subscription) : option (subscription * list output) :=
  match p st with
  | (Normal, st', out) => Some (st', out)
  | (Raised t, st', out) => Some (st', out ++ [Uncaught t])
  | (OutOfFuel, _, _) => None
  end.

Definition remove_task (k : nat) (st : subscription) : subscription :=
  set_tasks (delete k (tasks st)) st.

(** One event; [None] when the event cannot happen in this state (no such
    pending task). *)
Definition step (e : event) (st : subscription) : option (subscription * list output) :=
  match e with
  | CallStop => toplevel stop st
  | CallOnChange f => toplevel (onChange f) st
  | Response k req reqDuration =>
      match tasks st !! k with
      | Some (Pending r) =>
          toplevel (run_statements (Ajax.on_complete r reqDuration req)) (remove_task k st)
      | _ => None
      end
  | TimerFired k =>
      match tasks st !! k with
      | Some (Timer _) => toplevel getChangesSince (remove_task k st)
      | _ => None
      end
  end.

(** A sequence of events, with the whole log. *)
Fixpoint run (es : list event) (st : subscription) : option (subscription * list output) :=
  match es with
  | [] => Some (st, [])
  | e :: es' =>
      match step e st with
      | Some (st1, out1) =>
          match run es' st1 with
          | Some (st2, out2) => Some (st2, out1 ++ out2)
          | None => None
          end
      | None => None
      end
  end.

(** An options object as a caller can write it: distinct names, its
    functions the caller's own, and [ajaxStart] and [beforeSuccess], where
    given, functions. *)
Definition own_value (v : value) : bool :=
  match v with
  | VFun (Callback _) => true
  | VFun _ => false
  | _ => true
  end.

Definition hook_ok (v : value) : bool :=
  match v with
  | VFun _ => true
  | _ => negb (Js.truthy v)
  end.

Definition caller_ok (o : object) : bool :=
  bool_decide (NoDup o.*1) && forallb (fun kv => own_value (snd kv)) o &&
  hook_ok (Js.get "ajaxStart" o) && hook_ok (Js.get "beforeSuccess" o).

(** The states a subscription can be in: those reached from a call of
    [changes] by some sequence of events. *)
Definition reachable (st : subscription) : Prop :=
  exists db_uri since0 options st0 out0 es log,
    caller_ok (default [] options) = true /\
    changes db_uri since0 options = (Normal, st0, out0) /\
    run es st0 = Some (st, log).

(** The status [complete] takes for success on a poll of [st]. *)
Definition expected_status (st : subscription) : value :=
  Js.get "successStatus" (req_options (poll_request st)).

(** A response that [complete] hands to [options.success], and one that it
    hands to [options.error]. *)
Definition succeeds (st : subscription) (req : xhr) (resp : json) : Prop :=
  parsed req = Some resp /\
  Ajax.status_matches (status req) (expected_status st) = true.

Definition fails (st : subscription) (req : xhr) : Prop :=
  parsed req = None \/
  Ajax.status_matches (status req) (expected_status st) = false.

(** The [since] parameter of a poll that was sent. *)
Definition since_of (r : request) : option value := Ajax.search_param "since" r.

Definition is_poll (o : output) : bool :=
  match o with
  | Sent r =>
      match Ajax.search_param "feed" r with
      | Some (VJson (JStr s)) => String.eqb s "longpoll"
      | _ => false
      end
  | _ => false
  end.

Definition is_invocation (o : output) : bool :=
  match o with Invoked _ _ => true | _ => false end.

Definition is_request (o : output) : bool :=
  match o with Sent _ => true | _ => false end.

(** Readings of a log: the listeners registered, the delays of the timers
    set, the requests sent. *)
Definition registrations (log : list output) : list listener :=
  omap (fun o => match o with Registered f => Some f | _ => None end) log.

Definition delays (log : list output) : list Z :=
  omap (fun o => match o with TimerSet d => Some d | _ => None end) log.

Definition requests (log : list output) : list request :=
  omap (fun o => match o with Sent r => Some r | _ => None end) log.



End Feed.

(** ** [newUUID] (lines 810-825) and the cache [uuidCache] (line 58) *)

(** What [newUUID] does: returns a value ([None] is [undefined]) or throws. *)
Inductive returned :=
| Returns (v : option json)
| Throws (t : thrown).

(** The result of a call: what it returned, the cache afterwards, the
    requests it made, and the exceptions that were reported by the browser
    rather than handed to the caller. *)
Record uuid_result := {
  result : returned;
  cache_after : option json;
  fetched : list request;
  reported : list thrown
}.

Module Uuid.

(** [uuidCache.length]; [None] is the TypeError on [undefined] and [null]. *)
Definition length_of (cache : option json) : option value :=
  match cache with
  | None | Some JNull => None
  | Some (JArr items) => Some (VJson (JNum (Z.of_nat (length items))))
  | Some (JStr s) => Some (VJson (JNum (Z.of_nat (String.length s))))
  | Some _ => Some VUndefined
  end.

(** [uuidCache.shift()]: the first element (or [undefined]) and the rest;
    [None] is the TypeError on anything but an array. *)
Definition shift (cache : option json) : option (option json * option json) :=
  match cache with
  | Some (JArr []) => Some (None, Some (JArr []))
  | Some (JArr (x :: rest)) => Some (Some x, Some (JArr rest))
  | _ => None
  end.

(** The statements of [complete] against the cache: only the [success]
    closure of [newUUID] is among the options. *)
Fixpoint run_statements (l : list statement) (cache : option json)
  : option thrown * option json :=
  match l with
  | [] => (None, cache)
  | Throw t :: _ => (Some t, cache)
  | Call UuidSuccess (Success resp _) :: l' =>
      match Js.field_json "uuids" resp with
      | Some uuids => run_statements l' uuids
      | None => (Some TypeError, cache)
      end
  | Call _ _ :: l' => run_statements l' cache
  end.

(** [return uuidCache.shift()]. *)
Definition shift_and_return (cache : option json) (rs : list request)
    (rep : list thrown) : uuid_result :=
  match shift cache with
  | Some (v, rest) =>
      {| result := Returns v; cache_after := rest; fetched := rs; reported := rep |}
  | None =>
      {| result := Throws TypeError; cache_after := cache; fetched := rs;
         reported := rep |}
  end.

(** The request for a batch of identifiers (lines 815-822). *)
Definition uuids_request (urlPrefix : string) (cacheNum : json) : request :=
  Ajax.ajax
    {| type := "GET"; url := urlPrefix +:+ "/_uuids";
       search := [];
       data := VJson (JObj [("count"%string, cacheNum)]);
       async := false |}
    [("success"%string, VFun UuidSuccess)]
    "Failed to retrieve UUID batch.".

(** [newUUID(cacheNum)]; [None] is an omitted [cacheNum].  The request is
    synchronous: [server] answers it before [ajax] returns.  An exception
    raised inside [complete] either reaches [newUUID] ([propagates]) or is
    reported by the browser's event dispatch, after which [newUUID] goes
    on. *)
Definition newUUID (urlPrefix : string) (cacheNum : option json)
    (server : request -> xhr * Z) (propagates : bool)
    (uuidCache : option json) : uuid_result :=
  let cacheNum := match cacheNum with None => JNum 1 | Some n => n end in
  match length_of uuidCache with
  | None =>
      {| result := Throws TypeError; cache_after := uuidCache; fetched := [];
         reported := [] |}
  | Some len =>
      if negb (Js.truthy len) then
        let r := uuids_request urlPrefix cacheNum in
        let '(req, reqDuration) := server r in
        match run_statements (Ajax.on_complete r reqDuration req) uuidCache with
        | (None, cache) => shift_and_return cache [r] []
        | (Some t, cache) =>
            if propagates then
              {| result := Throws t; cache_after := cache; fetched := [r];
                 reported := [] |}
            else shift_and_return cache [r] [t]
        end
      else shift_and_return uuidCache [] []
  end.

(** The server's answer to the request: the batch [resp.uuids] of a
    response with status 200, or a failure. *)
Definition answered (req : xhr) (uuids : option json) : Prop :=
  exists resp,
    parsed req = Some resp /\ status req = 200 /\
    Js.field_json "uuids" resp = Some uuids.

Definition failed (req : xhr) : Prop :=
  parsed req = None \/ status req <> 200.

End Uuid.

(** ** [bulkRemove] (lines 556-571) *)

(** Document objects live in the caller's heap: the caller and the plugin
    hold references to the same objects. *)
Definition loc := positive.

(** An element of the array [docs.docs]: a reference to an object, or a
    primitive. *)
Inductive slot :=
| Ref (l : loc)
| Undefined
| Null
| Primitive (j : json).

Record bulk_result := {
  heap_after : gmap loc (gmap string json);
  options_after : option object;
  issued : outcome * list request
}.

Module Bulk.

(** [doc._deleted = true]. *)
Definition delete_doc (l : loc) (h : gmap loc (gmap string json))
  : gmap loc (gmap string json) :=
  alter (fun doc => <["_deleted"%string := JBool true]> doc) l h.

(** [$.each(docs.docs, function(i, doc){ doc._deleted = true; })]: the
    write raises on [undefined] and [null] and is dropped on a primitive. *)
Fixpoint mark_deleted (elems : list slot) (h : gmap loc (gmap string json))
  : outcome * gmap loc (gmap string json) :=
  match elems with
  | [] => (Normal, h)
  | Ref l :: rest => mark_deleted rest (delete_doc l h)
  | Undefined :: _ | Null :: _ => (Raised TypeError, h)
  | Primitive _ :: rest => mark_deleted rest h
  end.

(** What [JSON.stringify] writes for an element. *)
Definition slot_json (h : gmap loc (gmap string json)) (s : slot) : json :=
  match s with
  | Ref l => JObj (map_to_list (default ∅ (h !! l)))
  | Undefined | Null => JNull
  | Primitive j => j
  end.

(** [toJSON(docs)] for [docs = { docs: [...] , ...others }]. *)
Definition toJSON (h : gmap loc (gmap string json)) (elems : list slot)
    (others : list (string * json)) : json :=
  JObj (("docs"%string, JArr (slot_json h <$> elems)) :: others).

(** [bulkRemove(docs, options)] on the database at [db_uri]; [elems] is the
    array [docs.docs], [others] the remaining properties of [docs], and
    [None] an omitted [options] (on which [$.extend] raises). *)
Definition bulkRemove (db_uri : string) (elems : list slot)
    (others : list (string * json)) (options : option object)
    (h : gmap loc (gmap string json)) : bulk_result :=
  match mark_deleted elems h with
  | (Normal, h') =>
      match options with
      | None =>
          {| heap_after := h'; options_after := None;
             issued := (Raised TypeError, []) |}
      | Some options =>
          let options := Js.extend options [("successStatus"%string, VJson (JNum 201))] in
          {| heap_after := h'; options_after := Some options;
             issued :=
               (Normal,
                [Ajax.ajax
                   {| type := "POST";
                      url := db_uri +:+ "_bulk_docs";
                      search := Ajax.encodeOptions options;
                      data := VJson (toJSON h' elems others);
                      async := true |}
                   options
                   "The documents could not be deleted"]) |}
      end
  | (r, h') => {| heap_after := h'; options_after := options; issued := (r, []) |}
  end.

End Bulk.

(** ** Notions used to state the results about the change feed *)

Section FeedNotions.

Import Feed.

(** What a delivery leaves untouched. *)
Definition frame (st st' : subscription) : Prop :=
  since st' = since st /\ timeout st' = timeout st /\ options st' = options st /\
  uri st' = uri st /\ tasks st' = tasks st.

(** What listeners write to the log. *)
Definition handle_output (o : output) : Prop :=
  match o with
  | Invoked _ _ | Stopped | Registered _ => True
  | _ => False
  end.

(** Statements that call a caller's function only. *)
Definition hook_call (s : statement) : Prop :=
  match s with Call (Callback _) _ => True | _ => False end.

Definition hook_output (o : output) : Prop :=
  match o with Hook _ _ => True | _ => False end.

(** [options] once [changes] has installed its two closures. *)
Definition installed (o : object) : object :=
  Js.set "error" (VFun ChangesError) (Js.set "success" (VFun ChangesSuccess) o).

(** The invariant: the options are the caller's with the closures
    installed, and at most one callback is pending: a timer, the metadata
    request, or the poll for the current cursor. *)
Record ok (st : subscription) : Prop := {
  ok_options : exists o, caller_ok o = true /\ options st = installed o;
  ok_tasks :
    tasks st = [] \/ (exists d, tasks st = [Timer d]) \/
    tasks st = [Pending (info_request (uri st) info_options)] \/
    tasks st = [Pending (poll_request st)]
}.

(** Every step of a subscription that satisfies the invariant is one of
    these. *)
Inductive transition (st : subscription) : event -> subscription -> list output -> Prop :=
| T_stop :
    transition st CallStop (set_active false st) [Stopped]
| T_onChange f :
    transition st (CallOnChange f) (set_listeners (listeners st ++ [f]) st) [Registered f]
| T_timer delay :
    tasks st = [Timer delay] ->
    transition st (TimerFired 0)
      (set_tasks [Pending (poll_request st)] st) [Sent (poll_request st)]
| T_info_success req info v d :
    tasks st = [Pending (info_request (uri st) info_options)] ->
    parsed req = Some info -> status req = 200 ->
    Js.field "update_seq" info = Some v ->
    transition st (Response 0 req d)
      (set_tasks [Pending (poll_request (set_since v st))] (set_since v st))
      [Sent (poll_request (set_since v st))]
| T_info_other req d t :
    tasks st = [Pending (info_request (uri st) info_options)] ->
    transition st (Response 0 req d) (set_tasks [] st) [Uncaught t]
| T_failure req d hooks :
    tasks st = [Pending (poll_request st)] -> fails st req -> active st = true ->
    Forall hook_output hooks ->
    transition st (Response 0 req d)
      (set_timeout (timeout st * 2) (set_tasks [Timer (timeout st)] st))
      (hooks ++ [TimerSet (timeout st)])
| T_failure_inactive req d hooks :
    tasks st = [Pending (poll_request st)] -> fails st req -> active st = false ->
    Forall hook_output hooks ->
    transition st (Response 0 req d) (set_tasks [] st) (hooks ++ [])
| T_success req resp d st' hooks out added :
    tasks st = [Pending (poll_request st)] -> succeeds st req resp ->
    active st = true -> resp <> JNull ->
    Js.field "last_seq" resp = Some (since st') -> timeout st' = 100 ->
    options st' = options st -> uri st' = uri st ->
    tasks st' = [Pending (poll_request st')] ->
    listeners st' = listeners st ++ added -> registrations out = added ->
    Forall hook_output hooks -> Forall handle_output out ->
    filter is_invocation out = (fun f => Invoked f resp) <$> (listeners st ++ added) ->
    transition st (Response 0 req d) st' (hooks ++ out ++ [Sent (poll_request st')])
| T_success_inactive req resp d hooks :
    tasks st = [Pending (poll_request st)] -> succeeds st req resp ->
    active st = false -> Forall hook_output hooks ->
    transition st (Response 0 req d) (set_timeout 100 (set_tasks [] st)) (hooks ++ [])
| T_success_null req d hooks :
    tasks st = [Pending (poll_request st)] -> succeeds st req JNull ->
    active st = true -> Forall hook_output hooks ->
    transition st (Response 0 req d) (set_timeout 100 (set_tasks [] st))
      ((hooks ++ []) ++ [Uncaught TypeError]).

End FeedNotions.

(** A document object once [bulkRemove] has marked it. *)
Definition deleted (doc : gmap string json) : gmap string json :=
  <["_deleted"%string := JBool true]> doc.


(** ** Reading an encoded path back *)

Module Uri.

(** The value of a hexadecimal digit, upper or lower case. *)
Definition hex_value (c : ascii) : option N :=
  let n := Ascii.N_of_ascii c in
  (if (48 <=? n) && (n <=? 57) then Some (n - 48)
   else if (65 <=? n) && (n <=? 70) then Some (n - 55)
   else if (97 <=? n) && (n <=? 102) then Some (n - 87)
   else None)%N.

(** Percent-decoding, byte by byte: [%XY] is the byte with that code, any
    other character stands for itself. *)
Fixpoint percent_decode (s : string) : string :=
  match s with
  | EmptyString => EmptyString
  | String c s' =>
      match s' with
      | String x (String y rest) =>
          match (if Ascii.eqb c "%" then hex_value x else None), hex_value y with
          | Some h, Some l =>
              String (Ascii.ascii_of_N (h * 16 + l)) (percent_decode rest)
          | _, _ => String c (percent_decode s')
          end
      | _ => String c (percent_decode s')
      end
  end.

End Uri.

(** ** More of [newUUID]: calls one after the other *)

Module UuidSeq.

(** [n] calls of [newUUID(cacheNum)] in a row, each on the cache the one
    before left. *)
Fixpoint draw (n : nat) (urlPrefix : string) (cacheNum : option json)
    (server : request -> xhr * Z) (propagates : bool)
    (uuidCache : option json) : list uuid_result :=
  match n with
  | O => []
  | S n' =>
      let r := Uuid.newUUID urlPrefix cacheNum server propagates uuidCache in
      r :: draw n' urlPrefix cacheNum server propagates (cache_after r)
  end.

End UuidSeq.

(** ** The database and server requests built on [ajax] *)

(** What a call leaves behind: the exception it raised, if any; the
    caller's options object as the call left it ([None] when the argument
    was omitted); and the requests handed to [$.ajax]. *)
Record db_call := {
  raised : option thrown;
  caller_options : option object;
  made : list request
}.

Module Db.

(** [delete o[name]]. *)
Definition delete (name : string) (o : object) : object :=
  List.filter (fun kv => negb (String.eqb (fst kv) name)) o.

(** What [JSON.stringify] writes for an object's properties: those whose
    value is [undefined] or a function are left out. *)
Definition stringify_props (o : object) : list (string * json) :=
  omap (fun kv => match snd kv with
                  | VJson j => Some (fst kv, j)
                  | _ => None
                  end) o.

(** A string segment that may be [undefined], inside a concatenation. *)
Definition segment (s : option string) : string :=
  match s with Some s => s | None => "undefined"%string end.

Definition throws (options : option object) : db_call :=
  {| raised := Some TypeError; caller_options := options; made := [] |}.






(** The [keys] handling shared by [allDocs], [list] and [view]: with a
    truthy [options.keys] the request becomes a POST whose body is
    [{"keys": keys}], and [keys] is deleted from [options]. *)
Definition take_keys (options : object) : string * value * object :=
  if Js.truthy (Js.get "keys" options) then
    ("POST"%string,
     VJson (JObj (stringify_props [("keys"%string, Js.get "keys" options)])),
     delete "keys" options)
  else ("GET"%string, VJson JNull, options).

(** [allDocs] (lines 340-357); reading [options["keys"]] raises on an
    omitted [options]. *)
Definition allDocs (db_uri : string) (options : option object) : db_call :=
  match options with
  | None => throws None
  | Some o =>
      let '(method, body, o) := take_keys o in
      {| raised := None; caller_options := Some o;
         made := [Ajax.ajax {| type := method; url := db_uri +:+ "_all_docs";
                               search := Ajax.encodeOptions o;
                               data := body; async := true |}
                            o "An error occurred retrieving a list of all documents"] |}
  end.

(** [allDesignDocs] (lines 364-367): [allDocs] on a fresh object, so the
    caller's own object is not touched. *)
Definition allDesignDocs (db_uri : string) (options : option object) : db_call :=
  let fresh :=
    Js.extend [("startkey"%string, VJson (JStr "_design"));
               ("endkey"%string, VJson (JStr "_design0"))]
              (default [] options) in
  let r := allDocs db_uri (Some fresh) in
  {| raised := raised r; caller_options := options; made := made r |}.

(** [view] (lines 692-711): [options || {}], so an omitted [options] gives
    a local object the caller never sees. *)
Definition view (db_uri name : string) (options : option object) : db_call :=
  let name := Str.split "/" name in
  let '(method, body, o) := take_keys (default [] options) in
  {| raised := None; caller_options := (fun _ => o) <$> options;
     made := [Ajax.ajax {| type := method;
                           url := db_uri +:+ "_design/" +:+ segment (name !! 0%nat) +:+
                                  "/_view/" +:+ segment (name !! 1%nat);
                           search := Ajax.encodeOptions o;
                           data := body; async := true |}
                        o "An error occurred accessing the view"] |}.

(** [list] (lines 658-677): the handlers and the expected status come from
    [ajaxOptions], the fourth argument; [options] only feeds the query. *)
Definition list (db_uri list view : string) (options ajaxOptions : option object)
  : db_call :=
  let list := Str.split "/" list in
  let '(method, body, o) := take_keys (default [] options) in
  {| raised := None; caller_options := (fun _ => o) <$> options;
     made := [Ajax.ajax {| type := method;
                           url := db_uri +:+ "_design/" +:+ segment (list !! 0%nat) +:+
                                  "/_list/" +:+ segment (list !! 1%nat) +:+ "/" +:+ view;
                           search := Ajax.encodeOptions o;
                           data := body; async := true |}
                        (default [] ajaxOptions) "An error occured accessing the list"] |}.


End Db.

(** ** [copyDoc] (lines 585-606): a [complete] of its own *)

(** What the [complete] that [copyDoc] passes in [ajaxOptions] can raise,
    and the calls it makes. *)
Inductive copy_thrown :=
| SyntaxError                          (** [JSON.parse] on a text that is no JSON *)
| CopyTypeError
| CopyMessage (reason : value).        (** ["The document could not be copied: " + resp.reason] *)

Inductive copy_statement :=
| CopySuccess (f : value) (resp : json)                     (** [options.success(resp)] *)
| CopyError (f : value) (status : Z) (error reason : value) (** [options.error(req.status, resp.error, resp.reason)] *)
| CopyThrow (t : copy_thrown).

Module Copy.

(** The [complete] of lines 587-597; it replaces the one of [ajax], because
    [ajaxOptions] is merged last into the settings. *)
Definition complete (options : option object) (req : xhr) : list copy_statement :=
  match parsed req with
  | None => [CopyThrow SyntaxError]
  | Some resp =>
      match options with
      | None => [CopyThrow CopyTypeError]
      | Some options =>
          if status req =? 201 then
            if Js.truthy (Js.get "success" options)
            then [CopySuccess (Js.get "success" options) resp]
            else []
          else if Js.truthy (Js.get "error" options) then
            match Js.field "error" resp, Js.field "reason" resp with
            | Some e, Some r => [CopyError (Js.get "error" options) (status req) e r]
            | _, _ => [CopyThrow CopyTypeError]
            end
          else
            match Js.field "reason" resp with
            | Some r => [CopyThrow (CopyMessage r)]
            | None => [CopyThrow CopyTypeError]
            end
      end
  end.

(** [copyDoc(docId, options, ajaxOptions)]: [$.extend(ajaxOptions, ...)]
    raises on an omitted [ajaxOptions]; otherwise one request goes out,
    whose completion is [complete options].  [None] is the exception. *)
Definition copyDoc (db_uri docId : string) (options ajaxOptions : option object)
  : option (string * (xhr -> list copy_statement)) :=
  match ajaxOptions with
  | None => None
  | Some _ => Some (db_uri +:+ encodeDocId docId, complete options)
  end.

End Copy.

(** ** Notions used to state further results *)


(** ** Results about strings *)

Lemma split_nonempty sep s : Str.split sep s <> [].
Proof.
  induction s as [|c s IH]; simpl; [discriminate|].
  destruct (Ascii.eqb c sep); [discriminate|].
  destruct (Str.split sep s); discriminate.
Qed.

Lemma split_head sep s : head (Str.split sep s) = Some (Str.before_first sep s).
Proof.
  induction s as [|c s IH]; simpl; [reflexivity|].
  destruct (Ascii.eqb c sep); [reflexivity|].
  destruct (Str.split sep s) as [|seg rest]; simpl in *.
  - discriminate.
  - congruence.
Qed.

Lemma split_tail_join sep s :
  Str.join (String sep EmptyString) (tail (Str.split sep s)) = Str.after_first sep s.
Proof.
  induction s as [|c s IH]; simpl; [reflexivity|].
  destruct (Ascii.eqb c sep) eqn:E.
  - simpl. clear IH.
    induction s as [|d s IH]; simpl; [reflexivity|].
    destruct (Ascii.eqb d sep) eqn:E'.
    + apply Ascii.eqb_eq in E'. subst d.
      unfold Str.join in *. simpl.
      destruct (Str.split sep s) eqn:Hs; [now apply split_nonempty in Hs|].
      simpl. now rewrite <- IH.
    + unfold Str.join in *.
      destruct (Str.split sep s) as [|seg rest] eqn:Hs; [now apply split_nonempty in Hs|].
      simpl in *. destruct rest; simpl in *; now rewrite <- IH.
  - destruct (Str.split sep s) as [|seg rest]; simpl in *; exact IH.
Qed.

Lemma encodeURIComponent_app a b :
  Str.encodeURIComponent (a +:+ b) = Str.encodeURIComponent a +:+ Str.encodeURIComponent b.
Proof.
  induction a as [|c a IH]; simpl; [reflexivity|].
  rewrite IH. unfold Str.encode_byte.
  destruct (Str.unreserved c); reflexivity.
Qed.

Lemma occurs_app c a b : Str.occurs c (a +:+ b) = Str.occurs c a || Str.occurs c b.
Proof.
  induction a as [|d a IH]; simpl; [reflexivity|].
  rewrite IH. now rewrite orb_assoc.
Qed.

Lemma encode_byte_no_slash c : Str.occurs "/" (Str.encode_byte c) = false.
Proof.
  destruct c as [[] [] [] [] [] [] [] []]; vm_compute; reflexivity.
Qed.

Lemma encodeURIComponent_no_slash s : Str.occurs "/" (Str.encodeURIComponent s) = false.
Proof.
  induction s as [|c s IH]; simpl; [reflexivity|].
  now rewrite occurs_app, encode_byte_no_slash, IH.
Qed.

(** C9. [encodeDocId]: when the first '/'-separated segment of the
    identifier is [_design], the result is the literal [_design/] followed by
    the percent-encoding of everything after the first '/' (in which every
    further '/' has become [%2F]: the encoded text holds no '/'); every other
    identifier is percent-encoded as a whole. *)
Theorem encodeDocId_design_prefix_kept :
  (forall docID,
      encodeDocId docID =
      if bool_decide (Str.before_first "/" docID = "_design"%string)
      then "_design/" +:+ Str.encodeURIComponent (Str.after_first "/" docID)
      else Str.encodeURIComponent docID) /\
  (forall rest,
      encodeDocId ("_design/" +:+ rest) = "_design/" +:+ Str.encodeURIComponent rest) /\
  (forall a b,
      Str.encodeURIComponent (a +:+ "/" +:+ b) =
      Str.encodeURIComponent a +:+ "%2F" +:+ Str.encodeURIComponent b) /\
  (forall s, Str.occurs "/" (Str.encodeURIComponent s) = false).
Proof.
  assert (Hgen : forall docID,
      encodeDocId docID =
      if bool_decide (Str.before_first "/" docID = "_design"%string)
      then "_design/" +:+ Str.encodeURIComponent (Str.after_first "/" docID)
      else Str.encodeURIComponent docID).
  { intros docID. unfold encodeDocId.
    rewrite split_head.
    destruct (bool_decide (Str.before_first "/" docID = "_design"%string)) eqn:E.
    - apply bool_decide_eq_true in E. rewrite E.
      rewrite bool_decide_eq_true_2 by reflexivity.
      now rewrite (split_tail_join "/").
    - apply bool_decide_eq_false in E.
      rewrite bool_decide_eq_false_2; [reflexivity|]. congruence. }
  split; [exact Hgen|]. split; [|split].
  - intros rest. rewrite Hgen. reflexivity.
  - intros a b. rewrite !encodeURIComponent_app. reflexivity.
  - exact encodeURIComponent_no_slash.
Qed.

Example encodeDocId_design_view :
  encodeDocId "_design/app/by date" = "_design/app%2Fby%20date"%string.
Proof. reflexivity. Qed.

Example encodeDocId_bare_design : encodeDocId "_design" = "_design/"%string.
Proof. reflexivity. Qed.

Example encodeDocId_plain : encodeDocId "a/b c" = "a%2Fb%20c"%string.
Proof. reflexivity. Qed.

Example encodeDocId_inner_design :
  encodeDocId "x/_design/y" = "x%2F_design%2Fy"%string.
Proof. reflexivity. Qed.

(** ** Results about objects and [ajax] *)

Section ObjectLemmas.

Implicit Types (o t s : object) (k name : string) (v : value).

Lemma get_set_eq name v o : Js.get name (Js.set name v o) = v.
Proof.
  unfold Js.get. induction o as [|[k w] o IH]; simpl.
  - now rewrite String.eqb_refl.
  - destruct (String.eqb k name) eqn:E; simpl; rewrite E; [reflexivity|exact IH].
Qed.

Lemma get_set_ne name k v o : k <> name -> Js.get name (Js.set k v o) = Js.get name o.
Proof.
  intros Hne. unfold Js.get. induction o as [|[k' w] o IH]; simpl.
  - apply String.eqb_neq in Hne. now rewrite Hne.
  - destruct (String.eqb k' k) eqn:E; simpl.
    + apply String.eqb_eq in E. subst k'.
      apply String.eqb_neq in Hne. now rewrite Hne.
    + destruct (String.eqb k' name); [reflexivity|exact IH].
Qed.

Lemma get_not_in name o : name ∉ o.*1 -> Js.get name o = VUndefined.
Proof.
  unfold Js.get. induction o as [|[k w] o IH]; simpl; intros Hn; [reflexivity|].
  rewrite not_elem_of_cons in Hn. destruct Hn as [Hne Hn].
  assert (E : String.eqb k name = false) by (apply String.eqb_neq; congruence).
  rewrite E. now apply IH.
Qed.

Lemma set_keys name v o :
  (Js.set name v o).*1 = if bool_decide (name ∈ o.*1) then o.*1 else o.*1 ++ [name].
Proof.
  induction o as [|[k w] o IH]; csimpl; [reflexivity|].
  destruct (String.eqb k name) eqn:E; csimpl.
  - apply String.eqb_eq in E. subst k.
    rewrite bool_decide_eq_true_2 by (apply elem_of_cons; now left). reflexivity.
  - apply String.eqb_neq in E. rewrite IH.
    destruct (bool_decide (name ∈ o.*1)) eqn:B.
    + apply bool_decide_eq_true in B.
      rewrite bool_decide_eq_true_2 by (apply elem_of_cons; now right).
      reflexivity.
    + apply bool_decide_eq_false in B.
      rewrite bool_decide_eq_false_2; [reflexivity|].
      rewrite elem_of_cons. intros [->|?]; [now apply E|contradiction].
Qed.

Lemma set_NoDup name v o : NoDup o.*1 -> NoDup (Js.set name v o).*1.
Proof.
  intros Hnd. rewrite set_keys. case_bool_decide as Hin; [exact Hnd|].
  apply NoDup_app. split; [exact Hnd|]. split.
  - intros x Hx Hx'. apply list_elem_of_singleton in Hx'. now subst x.
  - apply NoDup_singleton.
Qed.

(** With distinct names in the source, [$.extend] leaves at [name] the
    source's value, unless that is [undefined], in which case the target's
    value stays. *)
Lemma get_extend name t s :
  NoDup s.*1 ->
  Js.get name (Js.extend t s) =
  match Js.get name s with VUndefined => Js.get name t | v => v end.
Proof.
  unfold Js.extend. revert t.
  induction s as [|[k w] s IH]; intros t Hnd; simpl.
  - reflexivity.
  - apply NoDup_cons in Hnd. destruct Hnd as [Hk Hnd].
    rewrite IH by exact Hnd. clear IH.
    unfold Js.get at 3. simpl.
    destruct (String.eqb k name) eqn:E.
    + apply String.eqb_eq in E. subst k.
      rewrite (get_not_in name s Hk).
      destruct w; simpl; try reflexivity; apply get_set_eq.
    + apply String.eqb_neq in E. fold (Js.get name s).
      destruct (Js.get name s); try reflexivity.
      destruct w; simpl; try reflexivity; now apply get_set_ne.
Qed.

Lemma assoc_set_eq name v o : Js.assoc name (Js.set name v o) = Some v.
Proof.
  induction o as [|[k w] o IH]; simpl.
  - now rewrite String.eqb_refl.
  - destruct (String.eqb k name) eqn:E; simpl; rewrite E; [reflexivity|exact IH].
Qed.

Lemma assoc_set_ne name k v o :
  k <> name -> Js.assoc name (Js.set k v o) = Js.assoc name o.
Proof.
  intros Hne. induction o as [|[k' w] o IH]; simpl.
  - apply String.eqb_neq in Hne. now rewrite Hne.
  - destruct (String.eqb k' k) eqn:E; simpl.
    + apply String.eqb_eq in E. subst k'.
      apply String.eqb_neq in Hne. now rewrite Hne.
    + destruct (String.eqb k' name); [reflexivity|exact IH].
Qed.

(** [encodeOptions] writes a name that is no handler's with the value the
    object holds for it. *)
Lemma find_encodeOptions name o :
  name ∉ Ajax.handler_names ->
  pvalue <$> List.find (fun p => String.eqb (pname p) name) (Ajax.encodeOptions o)
  = Js.assoc name o.
Proof.
  intros Hn. unfold Ajax.encodeOptions.
  induction o as [|[k w] o IH]; simpl; [reflexivity|].
  case_bool_decide as Hk; simpl.
  - destruct (String.eqb k name) eqn:E.
    + apply String.eqb_eq in E. subst k. contradiction.
    + exact IH.
  - destruct (String.eqb k name) eqn:E; [reflexivity|exact IH].
Qed.

(** The handlers [complete] sees are the ones the caller of [ajax] gave. *)
Lemma ajax_keeps_property obj options errorMessage name :
  NoDup options.*1 -> name <> "successStatus"%string ->
  Js.get name (req_options (Ajax.ajax obj options errorMessage)) = Js.get name options.
Proof.
  intros Hnd Hne. simpl. rewrite get_extend by exact Hnd.
  destruct (Js.get name options) eqn:E; try reflexivity.
  unfold Js.get. cbn [Js.assoc].
  assert (E' : String.eqb "successStatus" name = false) by now apply String.eqb_neq.
  now rewrite E'.
Qed.

End ObjectLemmas.



Example malformed_body_without_error_handler :
  Ajax.on_complete
    (Ajax.ajax {| type := "GET"; url := "http://h/_uuids"; search := [];
                  data := VUndefined; async := false |}
               [("success"%string, VFun UuidSuccess)]
               "Failed to retrieve UUID batch.")
    12 {| status := 200; parsed := None |}
  = [Throw (ParseMessage "Failed to retrieve UUID batch.")].
Proof. reflexivity. Qed.

(** ** The change feed: delivery to listeners *)

Section Delivery.

Import Feed.
Local Open Scope proc_scope.

Lemma frame_refl st : frame st st.
Proof. now repeat split. Qed.

Lemma frame_trans st1 st2 st3 : frame st1 st2 -> frame st2 st3 -> frame st1 st3.
Proof.
  unfold frame. intros (?&?&?&?&?) (?&?&?&?&?). repeat split; congruence.
Qed.

Lemma seq_normal p q st st1 out1 :
  p st = (Normal, st1, out1) ->
  (p ;; q) st = match q st1 with (r, st2, out2) => (r, st2, out1 ++ out2) end.
Proof. unfold seq. now intros ->. Qed.

Lemma forest_weight_app fs gs :
  forest_weight (fs ++ gs) = (forest_weight fs + forest_weight gs)%nat.
Proof.
  unfold forest_weight. rewrite List.map_app.
  induction (List.map weight fs) as [|n l IH]; simpl; [reflexivity|].
  rewrite IH. lia.
Qed.

Lemma forest_weight_drop (fs : list listener) i f :
  fs !! i = Some f ->
  forest_weight (drop i fs) = (weight f + forest_weight (drop (S i) fs))%nat.
Proof.
  revert i. induction fs as [|g fs IH]; intros [|i] H; simpl in *; try discriminate.
  - injection H as ->. reflexivity.
  - now apply IH.
Qed.

Lemma stop_eq st : stop st = (Normal, set_active false st, [Stopped]).
Proof. reflexivity. Qed.

Lemma onChange_eq f st :
  onChange f st = (Normal, set_listeners (listeners st ++ [f]) st, [Registered f]).
Proof. reflexivity. Qed.

(** Registering the listeners [adds], one [onChange] after the other. *)
Lemma register_spec adds st :
  exists out,
    register adds st = (Normal, set_listeners (listeners st ++ adds) st, out) /\
    Forall handle_output out /\ filter is_invocation out = [] /\
    registrations out = adds.
Proof.
  revert st. induction adds as [|g adds IH]; intros st.
  - exists []. unfold register, skip. simpl. rewrite app_nil_r.
    destruct st; repeat split; constructor.
  - destruct (IH (set_listeners (listeners st ++ [g]) st)) as (out & E & Hout & Hinv & Hreg).
    exists (Registered g :: out).
    change (register (g :: adds)) with (onChange g ;; register adds).
    rewrite (seq_normal _ _ _ _ _ (onChange_eq g st)), E.
    simpl. rewrite <- app_assoc. simpl.
    split; [reflexivity|]. split; [constructor; [exact I|exact Hout]|].
    split; [exact Hinv|]. unfold registrations in *. simpl. now rewrite Hreg.
Qed.

(** One call of a listener: it is logged first; it may stop the
    subscription and register listeners, and touches nothing else. *)
Lemma call_listener_spec resp f st :
  exists st' out,
    call_listener resp f st = (Normal, st', Invoked f resp :: out) /\
    frame st st' /\
    (active st' = true -> active st = true) /\
    (exists adds, listeners st' = listeners st ++ adds /\
                  weight f = S (forest_weight adds) /\
                  registrations out = adds) /\
    Forall handle_output out /\ filter is_invocation out = [].
Proof.
  destruct f as [id stops adds]. unfold call_listener.
  assert (Hemit : emit (Invoked (Listener id stops adds) resp) st
                  = (Normal, st, [Invoked (Listener id stops adds) resp]))
    by reflexivity.
  rewrite (seq_normal _ _ _ _ _ Hemit).
  destruct stops.
  - destruct (register_spec adds (set_active false st)) as (out & E & Hout & Hinv & Hreg).
    rewrite (seq_normal _ _ _ _ _ (stop_eq st)), E.
    eexists _, (Stopped :: out). split; [reflexivity|].
    split; [now repeat split|]. split; [discriminate|].
    split; [exists adds; split; [reflexivity|split; [reflexivity|exact Hreg]]|].
    split; [constructor; [exact I|exact Hout]|exact Hinv].
  - destruct (register_spec adds st) as (out & E & Hout & Hinv & Hreg).
    assert (Hskip : skip st = (Normal, st, [])) by reflexivity.
    rewrite (seq_normal _ _ _ _ _ Hskip), E.
    eexists _, out. split; [reflexivity|].
    split; [now repeat split|]. split; [simpl; tauto|].
    split; [exists adds; split; [reflexivity|split; [reflexivity|exact Hreg]]|].
    split; assumption.
Qed.

(** The loop of [triggerListeners] from index [i]: with fuel above the
    weight of the listeners not yet called it ends normally, having called
    exactly the listeners from index [i] on of the final array, in order:
    those registered before, then those registered meanwhile. *)
Lemma each_from_spec resp fuel : forall i st,
  (forest_weight (drop i (listeners st)) < fuel)%nat ->
  exists st' out added,
    each_from fuel i (call_listener resp) st = (Normal, st', out) /\
    frame st st' /\
    (active st' = true -> active st = true) /\
    listeners st' = listeners st ++ added /\
    registrations out = added /\
    Forall handle_output out /\
    filter is_invocation out = (fun f => Invoked f resp) <$> drop i (listeners st').
Proof.
  induction fuel as [|fuel IH]; intros i st Hfuel; [lia|].
  simpl. destruct (listeners st !! i) as [f|] eqn:Hi.
  - destruct (call_listener_spec resp f st)
      as (st1 & out1 & E1 & Hfr1 & Hact1 & (adds & Hl1 & Hw & Hreg1) & Hout1 & Hinv1).
    assert (Hlt : (i < length (listeners st))%nat) by (eapply lookup_lt_Some; eauto).
    destruct (IH (S i) st1)
      as (st2 & out2 & added & E2 & Hfr2 & Hact2 & Hl2 & Hreg2 & Hout2 & Hinv2).
    { rewrite Hl1. rewrite drop_app_le by lia. rewrite forest_weight_app.
      rewrite (forest_weight_drop _ _ _ Hi) in Hfuel. lia. }
    exists st2, (Invoked f resp :: out1 ++ out2), (adds ++ added).
    rewrite (seq_normal _ _ _ _ _ E1), E2.
    split; [reflexivity|]. split; [eapply frame_trans; eauto|].
    split; [auto|]. split; [|split; [|split]].
    + rewrite Hl2, Hl1. now rewrite app_assoc.
    + unfold registrations in *. simpl. now rewrite omap_app, Hreg1, Hreg2.
    + constructor; [exact I|]. apply Forall_app. now split.
    + rewrite filter_cons_True by exact I.
      rewrite filter_app, Hinv1, Hinv2. simpl.
      assert (Hi2 : listeners st2 !! i = Some f).
      { rewrite Hl2, Hl1. rewrite <- app_assoc. now apply lookup_app_l_Some. }
      rewrite (drop_S _ _ _ Hi2). reflexivity.
  - exists st, [], []. rewrite app_nil_r.
    split; [reflexivity|]. split; [apply frame_refl|]. split; [auto|].
    split; [reflexivity|]. split; [reflexivity|]. split; [constructor|].
    apply lookup_ge_None in Hi. rewrite drop_ge by lia. reflexivity.
Qed.

(** [triggerListeners] always ends normally. *)
Lemma triggerListeners_spec resp st :
  exists st' out added,
    triggerListeners resp st = (Normal, st', out) /\
    frame st st' /\
    (active st' = true -> active st = true) /\
    listeners st' = listeners st ++ added /\
    registrations out = added /\
    Forall handle_output out /\
    filter is_invocation out = (fun f => Invoked f resp) <$> (listeners st ++ added).
Proof.
  unfold triggerListeners.
  destruct (each_from_spec resp (S (forest_weight (listeners st))) 0 st)
    as (st' & out & added & E & Hfr & Hact & Hl & Hreg & Hout & Hinv).
  { rewrite drop_0. lia. }
  exists st', out, added. rewrite drop_0, Hl in Hinv. auto 10.
Qed.

End Delivery.

(** ** The change feed: the handlers *)

Section Handlers.

Import Feed.
Local Open Scope proc_scope.

Lemma getChangesSince_eq st :
  getChangesSince st =
  (Normal, set_tasks (tasks st ++ [Pending (poll_request st)]) st,
   [Sent (poll_request st)]).
Proof. reflexivity. Qed.

(** [options.error] while active: the timer is set with the current delay,
    and the delay is doubled. *)
Lemma error_active st :
  active st = true ->
  error st =
  (Normal,
   set_timeout (timeout st * 2) (set_tasks (tasks st ++ [Timer (timeout st)]) st),
   [TimerSet (timeout st)]).
Proof. intros Ha. unfold error. rewrite Ha. reflexivity. Qed.

(** [options.error] after [stop()]: nothing. *)
Lemma error_inactive st : active st = false -> error st = (Normal, st, []).
Proof. intros Ha. unfold error. rewrite Ha. reflexivity. Qed.

(** [options.success] after [stop()]: only the delay is reset. *)
Lemma success_inactive resp st :
  active st = false -> success resp st = (Normal, set_timeout 100 st, []).
Proof. intros Ha. unfold success, seq, modify. simpl. rewrite Ha. reflexivity. Qed.

(** [options.success] while active, on a body that is not [null]. *)
Lemma success_active resp v st :
  active st = true ->
  Js.field "last_seq" resp = Some v ->
  exists st' out added,
    success resp st = (Normal, st', out ++ [Sent (poll_request st')]) /\
    since st' = v /\ timeout st' = 100 /\
    options st' = options st /\ uri st' = uri st /\
    tasks st' = tasks st ++ [Pending (poll_request st')] /\
    listeners st' = listeners st ++ added /\
    registrations out = added /\
    Forall handle_output out /\
    filter is_invocation out = (fun f => Invoked f resp) <$> (listeners st ++ added).
Proof.
  intros Ha Hf.
  destruct (triggerListeners_spec resp (set_since v (set_timeout 100 st)))
    as (st1 & out & added & E & (Hs & Ht & Ho & Hu & Hk) & _ & Hl & Hreg & Hout & Hinv).
  simpl in *.
  exists (set_tasks (tasks st1 ++ [Pending (poll_request st1)]) st1), out, added.
  split.
  - unfold success.
    assert (E0 : modify (set_timeout 100) st = (Normal, set_timeout 100 st, []))
      by reflexivity.
    rewrite (seq_normal _ _ _ _ _ E0). simpl. rewrite Ha, Hf.
    assert (E1 : modify (set_since v) (set_timeout 100 st)
                 = (Normal, set_since v (set_timeout 100 st), [])) by reflexivity.
    rewrite (seq_normal _ _ _ _ _ E1).
    rewrite (seq_normal _ _ _ _ _ E).
    rewrite getChangesSince_eq. reflexivity.
  - simpl. rewrite Hk. auto 10.
Qed.

(** [options.success] while active, on the body [null]: reading
    [resp.last_seq] raises, after the delay was reset. *)
Lemma success_null st :
  active st = true ->
  success JNull st = (Raised TypeError, set_timeout 100 st, []).
Proof. intros Ha. unfold success, seq, modify. simpl. rewrite Ha. reflexivity. Qed.

(** The [success] of the metadata request: no look at [active]. *)
Lemma info_success_spec info v st :
  Js.field "update_seq" info = Some v ->
  info_success info st =
  (Normal,
   set_tasks (tasks st ++ [Pending (poll_request (set_since v st))]) (set_since v st),
   [Sent (poll_request (set_since v st))]).
Proof. intros Hf. unfold info_success. rewrite Hf. reflexivity. Qed.

Lemma field_not_null name resp : resp <> JNull -> exists v, Js.field name resp = Some v.
Proof. destruct resp; intros H; try (eexists; reflexivity). contradiction. Qed.

Lemma field_null name resp : Js.field name resp = None -> resp = JNull.
Proof. destruct resp; try discriminate. reflexivity. Qed.

Lemma run_hooks hs rest st :
  Forall hook_call hs ->
  exists out,
    Forall hook_output out /\
    run_statements (hs ++ rest) st =
    match run_statements rest st with (r, st', out') => (r, st', out ++ out') end.
Proof.
  induction 1 as [|s hs Hs _ IH].
  - exists []. split; [constructor|]. simpl. now destruct (run_statements rest st) as [[? ?] ?].
  - destruct IH as (out & Hout & E).
    destruct s as [[| | | |id] a|t]; try contradiction.
    exists (Hook id a :: out). split; [constructor; [exact I|exact Hout]|].
    simpl. unfold seq at 1. simpl. fold (run_statements (hs ++ rest)).
    rewrite E. now destruct (run_statements rest st) as [[? ?] ?].
Qed.

End Handlers.

(** ** The change feed: what holds of every subscription *)

Section Invariant.

Import Feed.
Local Open Scope proc_scope.

Lemma caller_ok_NoDup o : caller_ok o = true -> NoDup o.*1.
Proof.
  unfold caller_ok. rewrite !andb_true_iff. intros [[[H _] _] _].
  now apply bool_decide_eq_true in H.
Qed.

Lemma get_in name o v : Js.get name o = v -> v <> VUndefined -> (name, v) ∈ o.
Proof.
  unfold Js.get. induction o as [|[k w] o IH]; simpl; intros H Hv.
  - congruence.
  - destruct (String.eqb k name) eqn:E.
    + apply String.eqb_eq in E. subst. apply elem_of_cons. now left.
    + apply elem_of_cons. right. now apply IH.
Qed.

Lemma caller_ok_hook o name :
  caller_ok o = true -> name = "ajaxStart"%string \/ name = "beforeSuccess"%string ->
  (exists id, Js.get name o = VFun (Callback id)) \/ Js.truthy (Js.get name o) = false.
Proof.
  unfold caller_ok. rewrite !andb_true_iff. intros [[[_ Hown] Ha] Hb] Hname.
  assert (Hh : hook_ok (Js.get name o) = true) by (destruct Hname; subst; assumption).
  destruct (Js.get name o) as [|j|h] eqn:E.
  - now right.
  - right. simpl in Hh. now apply negb_true_iff in Hh.
  - left. apply get_in in E; [|discriminate].
    rewrite forallb_forall in Hown.
    apply list_elem_of_In in E. specialize (Hown _ E). simpl in Hown.
    destruct h; try discriminate. eauto.
Qed.

Lemma installed_NoDup o : NoDup o.*1 -> NoDup (installed o).*1.
Proof. intros H. unfold installed. now do 2 apply set_NoDup. Qed.

Lemma installed_error o : Js.get "error" (installed o) = VFun ChangesError.
Proof. apply get_set_eq. Qed.

Lemma installed_success o : Js.get "success" (installed o) = VFun ChangesSuccess.
Proof.
  unfold installed. rewrite get_set_ne by discriminate. apply get_set_eq.
Qed.

Lemma installed_other o name :
  name <> "error"%string -> name <> "success"%string ->
  Js.get name (installed o) = Js.get name o.
Proof.
  intros H1 H2. unfold installed. rewrite !get_set_ne by congruence. reflexivity.
Qed.

Lemma poll_property st name :
  ok st -> name <> "successStatus"%string ->
  Js.get name (req_options (poll_request st)) = Js.get name (options st).
Proof.
  intros [(o & Ho & E) _] Hn. unfold poll_request.
  apply ajax_keeps_property; [|exact Hn].
  rewrite E. apply installed_NoDup. now apply caller_ok_NoDup.
Qed.

Lemma poll_hook st name a :
  ok st -> name = "ajaxStart"%string \/ name = "beforeSuccess"%string ->
  Forall hook_call (Ajax.call_if_present (req_options (poll_request st)) name a).
Proof.
  intros Hok Hname. unfold Ajax.call_if_present.
  rewrite poll_property by (try assumption; destruct Hname; subst; discriminate).
  destruct Hok as [(o & Ho & E) _]. rewrite E.
  rewrite installed_other by (destruct Hname; subst; discriminate).
  destruct (caller_ok_hook o name Ho Hname) as [[id Hid]|Hf].
  - rewrite Hid. simpl. constructor; [exact I|constructor].
  - rewrite Hf. constructor.
Qed.

Lemma poll_error st : ok st -> Js.get "error" (req_options (poll_request st)) = VFun ChangesError.
Proof.
  intros Hok. rewrite poll_property by (try assumption; discriminate).
  destruct Hok as [(o & _ & E) _]. rewrite E. apply installed_error.
Qed.

Lemma poll_success st :
  ok st -> Js.get "success" (req_options (poll_request st)) = VFun ChangesSuccess.
Proof.
  intros Hok. rewrite poll_property by (try assumption; discriminate).
  destruct Hok as [(o & _ & E) _]. rewrite E. apply installed_success.
Qed.

(** [complete] of a poll on a response that succeeds: the caller's hooks,
    then [options.success]. *)
Lemma on_complete_poll_success st req resp d :
  ok st -> succeeds st req resp ->
  exists hs,
    Forall hook_call hs /\
    Ajax.on_complete (poll_request st) d req = hs ++ [Call ChangesSuccess (Success resp d)].
Proof.
  intros Hok [Hp Hs]. unfold Ajax.on_complete, Ajax.complete. rewrite Hp.
  unfold expected_status in Hs. rewrite Hs.
  exists (Ajax.call_if_present (req_options (poll_request st)) "ajaxStart" (Start resp) ++
          Ajax.call_if_present (req_options (poll_request st)) "beforeSuccess" (Before resp d)).
  split.
  - apply Forall_app. split; apply poll_hook; auto.
  - rewrite <- app_assoc. do 2 f_equal.
    unfold Ajax.call_if_present. rewrite (poll_success st Hok). reflexivity.
Qed.

(** [complete] of a poll on a response that fails: at most the caller's
    [ajaxStart], then [options.error]. *)
Lemma on_complete_poll_failure st req d :
  ok st -> fails st req ->
  exists hs a,
    Forall hook_call hs /\
    Ajax.on_complete (poll_request st) d req = hs ++ [Call ChangesError a].
Proof.
  intros Hok Hf. unfold Ajax.on_complete, Ajax.complete.
  destruct (parsed req) as [resp|] eqn:Hp.
  - destruct Hf as [Hf|Hf]; [congruence|].
    unfold expected_status in Hf. rewrite Hf.
    rewrite (poll_error st Hok). simpl.
    eexists _, _. split; [|reflexivity].
    apply poll_hook; auto.
  - rewrite (poll_error st Hok). simpl.
    exists [], (ParseFailure (status req)). split; [constructor|reflexivity].
Qed.

(** [complete] of the metadata request. *)
Lemma on_complete_info db_uri req d :
  Ajax.on_complete (info_request db_uri info_options) d req =
  match parsed req with
  | None => [Throw (ParseMessage "Database information could not be retrieved")]
  | Some info =>
      if status req =? 200 then [Call InfoSuccess (Success info d)]
      else [match Js.field "reason" info with
            | Some v => Throw (ReasonMessage "Database information could not be retrieved" v)
            | None => Throw TypeError
            end]
  end.
Proof.
  unfold Ajax.on_complete, Ajax.complete. simpl.
  destruct (parsed req); [|reflexivity].
  destruct (status req =? 200); reflexivity.
Qed.

Lemma poll_request_is_poll st :
  Ajax.search_param "feed" (poll_request st) = Some (VJson (JStr "longpoll")).
Proof.
  unfold Ajax.search_param, poll_request. simpl sent. simpl search.
  rewrite find_encodeOptions by (apply (bool_decide_eq_false_1 _); reflexivity).
  unfold Js.extend at 1. simpl fold_left.
  destruct (since st); simpl; rewrite ?assoc_set_eq; try reflexivity;
    rewrite assoc_set_ne by discriminate; apply assoc_set_eq.
Qed.

End Invariant.

(** ** The change feed: one event at a time *)

Section Steps.

Import Feed.
Local Open Scope proc_scope.

Lemma seq_skip_r p st : (p ;; skip) st = p st.
Proof.
  unfold seq, skip. destruct (p st) as [[[ | |] st1] out1]; try reflexivity.
  now rewrite app_nil_r.
Qed.

Lemma run_single s st : run_statements [s] st = dispatch s st.
Proof. simpl. apply seq_skip_r. Qed.

(** Running the caller's hooks and then one closing statement. *)
Lemma run_hooks_then hs s st :
  Forall hook_call hs ->
  exists hooks,
    Forall hook_output hooks /\
    run_statements (hs ++ [s]) st =
    match dispatch s st with (r, st', out) => (r, st', hooks ++ out) end.
Proof.
  intros Hhs. destruct (run_hooks hs [s] st Hhs) as (hooks & Hh & E).
  exists hooks. split; [exact Hh|]. rewrite E, run_single. reflexivity.
Qed.

Lemma remove_only_task t st :
  tasks st = [t] -> remove_task 0 st = set_tasks [] st.
Proof. unfold remove_task. now intros ->. Qed.

(** A poll fails while the subscription is active: a timer is set with the
    current delay, the delay doubles, the cursor stays. *)
Lemma step_poll_failure st req d :
  ok st -> tasks st = [Pending (poll_request st)] -> fails st req ->
  active st = true ->
  exists hooks,
    Forall hook_output hooks /\
    step (Response 0 req d) st =
    Some (set_timeout (timeout st * 2) (set_tasks [Timer (timeout st)] st),
          hooks ++ [TimerSet (timeout st)]).
Proof.
  intros Hok Ht Hf Ha.
  destruct (on_complete_poll_failure st req d Hok Hf) as (hs & a & Hhs & E).
  destruct (run_hooks_then hs (Call ChangesError a) (set_tasks [] st) Hhs)
    as (hooks & Hh & E').
  exists hooks. split; [exact Hh|].
  unfold step. rewrite Ht. simpl lookup. cbv iota.
  rewrite (remove_only_task _ _ Ht), E. unfold toplevel. rewrite E'.
  change (dispatch (Call ChangesError a)) with error.
  rewrite error_active by exact Ha. reflexivity.
Qed.

(** A poll fails after [stop()]: nothing follows. *)
Lemma step_poll_failure_inactive st req d :
  ok st -> tasks st = [Pending (poll_request st)] -> fails st req ->
  active st = false ->
  exists hooks,
    Forall hook_output hooks /\
    step (Response 0 req d) st = Some (set_tasks [] st, hooks ++ []).
Proof.
  intros Hok Ht Hf Ha.
  destruct (on_complete_poll_failure st req d Hok Hf) as (hs & a & Hhs & E).
  destruct (run_hooks_then hs (Call ChangesError a) (set_tasks [] st) Hhs)
    as (hooks & Hh & E').
  exists hooks. split; [exact Hh|].
  unfold step. rewrite Ht. simpl lookup. cbv iota.
  rewrite (remove_only_task _ _ Ht), E. unfold toplevel. rewrite E'.
  change (dispatch (Call ChangesError a)) with error.
  rewrite error_inactive by exact Ha. reflexivity.
Qed.

(** A poll succeeds while the subscription is active, with a body other
    than [null]: the delay is reset, the cursor becomes [resp.last_seq], the
    listeners run, and the next poll goes out last. *)
Lemma step_poll_success st req resp d :
  ok st -> tasks st = [Pending (poll_request st)] -> succeeds st req resp ->
  active st = true -> resp <> JNull ->
  exists st' hooks out added,
    step (Response 0 req d) st = Some (st', hooks ++ out ++ [Sent (poll_request st')]) /\
    Js.field "last_seq" resp = Some (since st') /\ timeout st' = 100 /\
    options st' = options st /\ uri st' = uri st /\
    tasks st' = [Pending (poll_request st')] /\
    listeners st' = listeners st ++ added /\ registrations out = added /\
    Forall hook_output hooks /\ Forall handle_output out /\
    filter is_invocation out = (fun f => Invoked f resp) <$> (listeners st ++ added).
Proof.
  intros Hok Ht Hs Ha Hnn.
  destruct (on_complete_poll_success st req resp d Hok Hs) as (hs & Hhs & E).
  destruct (run_hooks_then hs (Call ChangesSuccess (Success resp d)) (set_tasks [] st) Hhs)
    as (hooks & Hh & E').
  destruct (field_not_null "last_seq" resp Hnn) as (v & Hv).
  destruct (success_active resp v (set_tasks [] st) Ha Hv)
    as (st' & out & added & Es & H1 & H2 & H3 & H4 & H5 & H6 & H7 & H8 & H9).
  exists st', hooks, out, added.
  split.
  - unfold step. rewrite Ht. simpl lookup. cbv iota.
    rewrite (remove_only_task _ _ Ht), E. unfold toplevel. rewrite E'.
    change (dispatch (Call ChangesSuccess (Success resp d))) with (success resp).
    rewrite Es. reflexivity.
  - simpl in *. subst v. auto 12.
Qed.

(** A poll succeeds after [stop()]: the delay is reset, nothing else. *)
Lemma step_poll_success_inactive st req resp d :
  ok st -> tasks st = [Pending (poll_request st)] -> succeeds st req resp ->
  active st = false ->
  exists hooks,
    Forall hook_output hooks /\
    step (Response 0 req d) st = Some (set_timeout 100 (set_tasks [] st), hooks ++ []).
Proof.
  intros Hok Ht Hs Ha.
  destruct (on_complete_poll_success st req resp d Hok Hs) as (hs & Hhs & E).
  destruct (run_hooks_then hs (Call ChangesSuccess (Success resp d)) (set_tasks [] st) Hhs)
    as (hooks & Hh & E').
  exists hooks. split; [exact Hh|].
  unfold step. rewrite Ht. simpl lookup. cbv iota.
  rewrite (remove_only_task _ _ Ht), E. unfold toplevel. rewrite E'.
  change (dispatch (Call ChangesSuccess (Success resp d))) with (success resp).
  rewrite success_inactive by exact Ha. reflexivity.
Qed.

(** A poll succeeds with the body [null] while active: [resp.last_seq]
    raises and the subscription makes no further request. *)
Lemma step_poll_success_null st req d :
  ok st -> tasks st = [Pending (poll_request st)] -> succeeds st req JNull ->
  active st = true ->
  exists hooks,
    Forall hook_output hooks /\
    step (Response 0 req d) st =
    Some (set_timeout 100 (set_tasks [] st), (hooks ++ []) ++ [Uncaught TypeError]).
Proof.
  intros Hok Ht Hs Ha.
  destruct (on_complete_poll_success st req JNull d Hok Hs) as (hs & Hhs & E).
  destruct (run_hooks_then hs (Call ChangesSuccess (Success JNull d)) (set_tasks [] st) Hhs)
    as (hooks & Hh & E').
  exists hooks. split; [exact Hh|].
  unfold step. rewrite Ht. simpl lookup. cbv iota.
  rewrite (remove_only_task _ _ Ht), E. unfold toplevel. rewrite E'.
  change (dispatch (Call ChangesSuccess (Success JNull d))) with (success JNull).
  rewrite success_null by exact Ha. reflexivity.
Qed.

(** The metadata request succeeds: the cursor becomes [info.update_seq] and
    the first poll goes out, whatever [active] is. *)
Lemma step_info_success st req info v d :
  tasks st = [Pending (info_request (uri st) info_options)] ->
  parsed req = Some info -> status req = 200 ->
  Js.field "update_seq" info = Some v ->
  step (Response 0 req d) st =
  Some (set_tasks [Pending (poll_request (set_since v st))] (set_since v st),
        [Sent (poll_request (set_since v st))]).
Proof.
  intros Ht Hp Hs Hv.
  unfold step. rewrite Ht. simpl lookup. cbv iota.
  rewrite (remove_only_task _ _ Ht), on_complete_info, Hp, Hs, Z.eqb_refl.
  unfold toplevel.
  rewrite run_single.
  change (dispatch (Call InfoSuccess (Success info d))) with (info_success info).
  rewrite (info_success_spec info v) by exact Hv. reflexivity.
Qed.

(** The metadata request ends any other way: an exception, and no poll. *)
Lemma step_info_other st req d :
  tasks st = [Pending (info_request (uri st) info_options)] ->
  (forall info, parsed req = Some info -> status req = 200 -> info = JNull) ->
  exists t,
    step (Response 0 req d) st = Some (set_tasks [] st, [Uncaught t]).
Proof.
  intros Ht Hcase.
  unfold step. rewrite Ht. simpl lookup. cbv iota.
  rewrite (remove_only_task _ _ Ht), on_complete_info. unfold toplevel.
  destruct (parsed req) as [info|] eqn:Hp.
  - destruct (status req =? 200) eqn:Hs.
    + apply Z.eqb_eq in Hs. rewrite (Hcase info eq_refl Hs).
      rewrite run_single. eexists. reflexivity.
    + rewrite run_single. destruct (Js.field "reason" info); eexists; reflexivity.
  - rewrite run_single. eexists. reflexivity.
Qed.

(** The timer fires: [getChangesSince] runs, whatever [active] is. *)
Lemma step_timer st delay :
  tasks st = [Timer delay] ->
  step (TimerFired 0) st =
  Some (set_tasks [Pending (poll_request st)] st, [Sent (poll_request st)]).
Proof.
  intros Ht. unfold step. rewrite Ht. simpl lookup. cbv iota.
  rewrite (remove_only_task _ _ Ht). reflexivity.
Qed.

End Steps.

(** ** The change feed as a transition system *)

Section Transitions.

Import Feed.
Local Open Scope proc_scope.

Lemma succeeds_or_fails st req :
  (exists resp, succeeds st req resp) \/ fails st req.
Proof.
  unfold succeeds, fails.
  destruct (parsed req) as [resp|]; [|now right; left].
  destruct (Ajax.status_matches (status req) (expected_status st)) eqn:E.
  - left. eauto.
  - right. now right.
Qed.

Lemma json_null_dec (j : json) : {j = JNull} + {j <> JNull}.
Proof. destruct j; (now left) || (right; discriminate). Qed.

Lemma step_transition st e st' out :
  ok st -> step e st = Some (st', out) -> transition st e st' out.
Proof.
  intros Hok Hstep. destruct e as [|f|k req d|k].
  - injection Hstep as <- <-. constructor.
  - injection Hstep as <- <-. constructor.
  - destruct (ok_tasks st Hok) as [Ht|[[delay Ht]|[Ht|Ht]]].
    + simpl in Hstep. rewrite Ht in Hstep. now destruct k.
    + simpl in Hstep. rewrite Ht in Hstep. now destruct k as [|[|k]].
    + assert (k = 0%nat) as ->.
      { simpl in Hstep. rewrite Ht in Hstep. now destruct k as [|[|k]]. }
      destruct (parsed req) as [info|] eqn:Hp.
      * destruct (Z.eq_dec (status req) 200) as [Hs|Hs].
        -- destruct (Js.field "update_seq" info) as [v|] eqn:Hv.
           ++ rewrite (step_info_success st req info v d Ht Hp Hs Hv) in Hstep.
              injection Hstep as <- <-. econstructor; eauto.
           ++ destruct (step_info_other st req d Ht) as (t & E).
              { intros info' Hp' _. apply (field_null "update_seq"). congruence. }
              rewrite E in Hstep. injection Hstep as <- <-. now constructor.
        -- destruct (step_info_other st req d Ht) as (t & E).
           { intros info' _ Hs'. contradiction. }
           rewrite E in Hstep. injection Hstep as <- <-. now constructor.
      * destruct (step_info_other st req d Ht) as (t & E).
        { intros info' Hp' _. congruence. }
        rewrite E in Hstep. injection Hstep as <- <-. now constructor.
    + assert (k = 0%nat) as ->.
      { simpl in Hstep. rewrite Ht in Hstep. now destruct k as [|[|k]]. }
      destruct (succeeds_or_fails st req) as [[resp Hs]|Hf];
        destruct (active st) eqn:Ha.
      * destruct (json_null_dec resp) as [->|Hnn].
        -- destruct (step_poll_success_null st req d Hok Ht Hs Ha) as (hooks & Hh & E).
           rewrite E in Hstep. injection Hstep as <- <-. now constructor.
        -- destruct (step_poll_success st req resp d Hok Ht Hs Ha Hnn)
             as (st1 & hooks & out1 & added & E & H1 & H2 & H3 & H4 & H5 & H6 & H7 & H8 & H9 & H10).
           rewrite E in Hstep. injection Hstep as <- <-.
           eapply T_success; eauto.
      * destruct (step_poll_success_inactive st req resp d Hok Ht Hs Ha) as (hooks & Hh & E).
        rewrite E in Hstep. injection Hstep as <- <-. econstructor; eauto.
      * destruct (step_poll_failure st req d Hok Ht Hf Ha) as (hooks & Hh & E).
        rewrite E in Hstep. injection Hstep as <- <-. now constructor.
      * destruct (step_poll_failure_inactive st req d Hok Ht Hf Ha) as (hooks & Hh & E).
        rewrite E in Hstep. injection Hstep as <- <-. now constructor.
  - destruct (ok_tasks st Hok) as [Ht|[[delay Ht]|[Ht|Ht]]];
      try (simpl in Hstep; rewrite Ht in Hstep; now destruct k as [|[|k]]).
    assert (k = 0%nat) as ->.
    { simpl in Hstep. rewrite Ht in Hstep. now destruct k as [|[|k]]. }
    rewrite (step_timer st delay Ht) in Hstep. injection Hstep as <- <-.
    econstructor; eauto.
Qed.

(** The invariant is kept, and nothing re-activates a subscription or
    changes its options. *)
Lemma transition_ok st e st' out :
  ok st -> transition st e st' out ->
  ok st' /\ options st' = options st /\ uri st' = uri st /\
  (active st = false -> active st' = false).
Proof.
  intros [Hopt Htasks] Ht.
  assert (Hkeep : forall st1, options st1 = options st ->
                   (tasks st1 = [] \/ (exists d, tasks st1 = [Timer d]) \/
                    tasks st1 = [Pending (info_request (uri st1) info_options)] \/
                    tasks st1 = [Pending (poll_request st1)]) -> ok st1).
  { intros st1 Ho Hs. split; [|exact Hs]. now rewrite Ho. }
  destruct Ht; (split; [apply Hkeep|]); simpl; auto; try congruence; eauto 6.
  repeat split; auto; congruence.
Qed.

Lemma changes_spec db_uri since0 options :
  let st := {| since := since0; timeout := 100; active := true; listeners := [];
               options := installed (default [] options); uri := db_uri;
               tasks := [] |} in
  changes db_uri since0 options =
  if Js.truthy since0
  then (Normal, set_tasks [Pending (poll_request st)] st, [Sent (poll_request st)])
  else (Normal, set_tasks [Pending (info_request db_uri info_options)] st,
        [Sent (info_request db_uri info_options)]).
Proof. unfold changes. simpl. destruct (Js.truthy since0); reflexivity. Qed.

Lemma changes_ok db_uri since0 options st0 out0 :
  caller_ok (default [] options) = true ->
  changes db_uri since0 options = (Normal, st0, out0) ->
  ok st0.
Proof.
  intros Hc E. rewrite changes_spec in E.
  destruct (Js.truthy since0); injection E as <- <-.
  - split; [eexists; split; [exact Hc|reflexivity]|]. simpl. auto.
  - split; [eexists; split; [exact Hc|reflexivity]|]. simpl. auto.
Qed.

Lemma run_ok es : forall st st' log,
  ok st -> run es st = Some (st', log) -> ok st'.
Proof.
  induction es as [|e es IH]; intros st st' log Hok Hrun; simpl in Hrun.
  - now injection Hrun as <- <-.
  - destruct (step e st) as [[st1 out1]|] eqn:E; [|discriminate].
    destruct (run es st1) as [[st2 out2]|] eqn:E2; [|discriminate].
    injection Hrun as <- <-.
    apply step_transition in E; [|exact Hok].
    apply (IH st1 st2 out2); [|exact E2].
    now apply (transition_ok st e st1 out1).
Qed.

(** Every reachable state satisfies the invariant. *)
Lemma reachable_ok st : reachable st -> ok st.
Proof.
  intros (db_uri & since0 & options & st0 & out0 & es & log & Hc & Hch & Hrun).
  eapply run_ok; [|exact Hrun]. eapply changes_ok; eauto.
Qed.

(** Requests are strictly sequential: at most one callback is pending. *)
Lemma at_most_one_pending st : reachable st -> (length (tasks st) <= 1)%nat.
Proof.
  intros Hr. destruct (ok_tasks st (reachable_ok st Hr)) as [H|[[d H]|[H|H]]];
    rewrite H; simpl; lia.
Qed.

Lemma reachable_step st e st' out :
  reachable st -> step e st = Some (st', out) -> reachable st'.
Proof.
  intros (db_uri & since0 & options & st0 & out0 & es & log & Hc & Hch & Hrun) Hstep.
  exists db_uri, since0, options, st0, out0, (es ++ [e]), (log ++ out).
  split; [exact Hc|]. split; [exact Hch|].
  clear Hch Hc. revert st0 log Hrun.
  induction es as [|e' es IH]; intros st0 log Hrun; simpl in *.
  - injection Hrun as <- <-. rewrite Hstep. simpl. now rewrite app_nil_r.
  - destruct (step e' st0) as [[st1 out1]|]; [|discriminate].
    destruct (run es st1) as [[st2 out2]|] eqn:E2; [|discriminate].
    injection Hrun as <- <-.
    rewrite (IH st1 out2 E2). now rewrite app_assoc.
Qed.

(** A step is possible exactly when the task it names is pending: the
    callbacks never fail to end. *)
Lemma step_enabled st e :
  ok st ->
  match e with
  | CallStop | CallOnChange _ => True
  | Response k _ _ => exists r, tasks st !! k = Some (Pending r)
  | TimerFired k => exists delay, tasks st !! k = Some (Timer delay)
  end ->
  exists st' out, step e st = Some (st', out).
Proof.
  intros Hok He. destruct e as [|f|k req d|k].
  - eexists _, _. reflexivity.
  - eexists _, _. reflexivity.
  - destruct He as (r & Hr).
    destruct (ok_tasks st Hok) as [Ht|[[delay Ht]|[Ht|Ht]]];
      rewrite Ht in Hr; destruct k as [|[|k]]; try discriminate.
    + destruct (parsed req) as [info|] eqn:Hp.
      * destruct (Z.eq_dec (status req) 200) as [Hs|Hs].
        -- destruct (Js.field "update_seq" info) as [v|] eqn:Hv.
           ++ rewrite (step_info_success st req info v d Ht Hp Hs Hv). eauto.
           ++ destruct (step_info_other st req d Ht) as (t & E); [|eauto].
              intros info' Hp' _. apply (field_null "update_seq"). congruence.
        -- destruct (step_info_other st req d Ht) as (t & E); [|eauto].
           intros info' _ Hs'. contradiction.
      * destruct (step_info_other st req d Ht) as (t & E); [|eauto].
        intros info' Hp' _. congruence.
    + destruct (succeeds_or_fails st req) as [[resp Hs]|Hf];
        destruct (active st) eqn:Ha.
      * destruct (json_null_dec resp) as [->|Hnn].
        -- destruct (step_poll_success_null st req d Hok Ht Hs Ha) as (hooks & Hh & E). eauto.
        -- destruct (step_poll_success st req resp d Hok Ht Hs Ha Hnn)
             as (st1 & hooks & out1 & added & E & _). eauto.
      * destruct (step_poll_success_inactive st req resp d Hok Ht Hs Ha) as (hooks & Hh & E). eauto.
      * destruct (step_poll_failure st req d Hok Ht Hf Ha) as (hooks & Hh & E). eauto.
      * destruct (step_poll_failure_inactive st req d Hok Ht Hf Ha) as (hooks & Hh & E). eauto.
  - destruct He as (delay & Hr).
    destruct (ok_tasks st Hok) as [Ht|[[delay' Ht]|[Ht|Ht]]];
      rewrite Ht in Hr; destruct k as [|[|k]]; try discriminate.
    rewrite (step_timer st delay' Ht). eauto.
Qed.

End Transitions.

(** ** The change feed: stopping, listeners *)

Section StopAndListeners.

Import Feed.


Lemma hook_not_invocation hooks :
  Forall hook_output hooks -> Forall (fun o => is_invocation o = false) hooks.
Proof.
  intros H. eapply Forall_impl; [exact H|]. now intros [].
Qed.



End StopAndListeners.

(** C1, at the failing input.  [changes()] without a cursor asks for the
    database metadata; the caller calls [stop()]; then the metadata
    response arrives.  Its [success] closure does not look at [active]: a
    [_changes] poll with [since=10] is sent although the subscription was
    stopped. *)
Theorem stop_before_metadata_still_polls :
  exists st0 st r,
    Feed.changes "http://h/db/" VUndefined None
      = (Normal, st0, [Sent (Feed.info_request "http://h/db/" Feed.info_options)]) /\
    Feed.run [Feed.CallStop;
              Feed.Response 0
                {| status := 200;
                   parsed := Some (JObj [("update_seq"%string, JNum 10)]) |} 5] st0
      = Some (st, [Stopped; Sent r]) /\
    Feed.is_poll (Sent r) = true /\
    Feed.since_of r = Some (VJson (JNum 10)) /\
    active st = false.
Proof.
  eexists _, _, _. split; [reflexivity|].
  split; [vm_compute; reflexivity|].
  split; [reflexivity|]. split; reflexivity.
Qed.

(** The same escape through a timer: the poll fails while active, the
    caller stops the subscription during the wait, and the timer's
    [getChangesSince] still sends the poll. *)
Example stop_during_backoff_still_polls :
  exists st0 out0 st r,
    Feed.changes "http://h/db/" (VJson (JNum 5)) None = (Normal, st0, out0) /\
    Feed.run [Feed.Response 0 {| status := 500; parsed := None |} 5;
              Feed.CallStop; Feed.TimerFired 0] st0
      = Some (st, [TimerSet 100; Stopped; Sent r]) /\
    Feed.is_poll (Sent r) = true.
Proof.
  eexists _, _, _, _. split; [reflexivity|].
  split; [vm_compute; reflexivity|reflexivity].
Qed.

(** What does hold after [stop()]: the completion of a poll in flight,
    success or failure, sends no request and sets no timer. *)
Lemma stopped_poll_completion_sends_nothing st req d st' out :
  Feed.reachable st -> active st = false ->
  tasks st = [Pending (Feed.poll_request st)] ->
  Feed.step (Feed.Response 0 req d) st = Some (st', out) ->
  Feed.requests out = [] /\ Feed.delays out = [] /\ tasks st' = [].
Proof.
  intros Hr Ha Ht Hstep. pose proof (reachable_ok _ Hr) as Hok.
  apply step_transition in Hstep; [|exact Hok].
  assert (Hq : forall hooks, Forall hook_output hooks ->
                 Feed.requests (hooks ++ []) = [] /\ Feed.delays (hooks ++ []) = []).
  { intros hooks Hh. rewrite app_nil_r. unfold Feed.requests, Feed.delays.
    induction Hh as [|o hooks Ho _ [IH1 IH2]]; [now split|].
    destruct o; try contradiction. simpl. now split. }
  inversion Hstep; subst; try congruence;
    try (rewrite Ht in *; discriminate).
  - destruct (Hq hooks) as [? ?]; auto.
  - destruct (Hq hooks) as [? ?]; auto.
Qed.




(** ** The change feed: retries, delivery, cursor *)

Section RetryAndCursor.

Import Feed.


Lemma delays_hooks hooks : Forall hook_output hooks -> delays hooks = [].
Proof.
  unfold delays. induction 1 as [|o hooks Ho _ IH]; [reflexivity|].
  destruct o; try contradiction. exact IH.
Qed.

Lemma requests_hooks hooks : Forall hook_output hooks -> requests hooks = [].
Proof.
  unfold requests. induction 1 as [|o hooks Ho _ IH]; [reflexivity|].
  destruct o; try contradiction. exact IH.
Qed.


(** A poll carries the cursor of the subscription. *)
Lemma poll_request_since st :
  since st <> VUndefined -> since_of (poll_request st) = Some (since st).
Proof.
  intros Hs. unfold since_of, Ajax.search_param, poll_request. simpl sent. simpl search.
  rewrite find_encodeOptions by (apply (bool_decide_eq_false_1 _); reflexivity).
  unfold Js.extend at 1. simpl fold_left.
  destruct (since st); [contradiction| |]; simpl; apply assoc_set_eq.
Qed.


End RetryAndCursor.





(** C5, as stated, fails for a cursor that is supplied but falsy: on
    [changes(0)] the first request is the metadata request, not a poll with
    [since=0]. *)
Lemma zero_cursor_asks_metadata_first :
  exists st0,
    Feed.changes "http://h/db/" (VJson (JNum 0)) None
      = (Normal, st0, [Sent (Feed.info_request "http://h/db/" Feed.info_options)]) /\
    Feed.is_poll (Sent (Feed.info_request "http://h/db/" Feed.info_options)) = false /\
    Feed.requests [Sent (Feed.info_request "http://h/db/" Feed.info_options)]
      <> [Feed.poll_request st0].
Proof.
  eexists. split; [reflexivity|]. split; [reflexivity|]. discriminate.
Qed.

(** A cursor that is omitted or falsy (0, the empty string, [null],
    [false]) takes the metadata path: no poll is sent before the metadata
    response has set the cursor. *)
Lemma falsy_cursor_asks_metadata (db_uri : string) (since0 : value) (options : option object) :
  Js.truthy since0 = false ->
  exists st0,
    Feed.changes db_uri since0 options
      = (Normal, st0, [Sent (Feed.info_request db_uri Feed.info_options)]) /\
    Feed.is_poll (Sent (Feed.info_request db_uri Feed.info_options)) = false /\
    forall req info v reqDuration,
      parsed req = Some info -> status req = 200 ->
      Js.field "update_seq" info = Some v -> v <> VUndefined ->
      exists st1,
        Feed.step (Feed.Response 0 req reqDuration) st0
          = Some (st1, [Sent (Feed.poll_request st1)]) /\
        since st1 = v /\
        Feed.is_poll (Sent (Feed.poll_request st1)) = true /\
        Feed.since_of (Feed.poll_request st1) = Some v.
Proof.
  intros Ht. rewrite changes_spec, Ht. eexists. split; [reflexivity|].
  split; [reflexivity|].
  intros req info v d Hp Hs Hv Hnu.
  match goal with
  | |- exists st1, Feed.step _ ?s = _ /\ _ =>
      pose proof (step_info_success s req info v d eq_refl Hp Hs Hv) as E
  end.
  eexists. split; [exact E|].
  split; [reflexivity|]. split.
  - simpl. now rewrite poll_request_is_poll.
  - now apply poll_request_since.
Qed.

(** C5, amended.  With a truthy cursor, [changes] sends the first poll at
    once, carrying that cursor.  With the cursor omitted it sends the
    metadata request and no poll; when the metadata arrives, the cursor
    becomes its [update_seq] and only then the first poll goes out, carrying
    that value. *)
Theorem first_poll_after_cursor_known
    (db_uri : string) (since0 : value) (options : option object) :
  (Js.truthy since0 = true ->
   exists st0,
     Feed.changes db_uri since0 options = (Normal, st0, [Sent (Feed.poll_request st0)]) /\
     Feed.is_poll (Sent (Feed.poll_request st0)) = true /\
     Feed.since_of (Feed.poll_request st0) = Some since0) /\
  (since0 = VUndefined ->
   exists st0,
     Feed.changes db_uri since0 options
       = (Normal, st0, [Sent (Feed.info_request db_uri Feed.info_options)]) /\
     Feed.is_poll (Sent (Feed.info_request db_uri Feed.info_options)) = false /\
     forall req info v reqDuration,
       parsed req = Some info -> status req = 200 ->
       Js.field "update_seq" info = Some v -> v <> VUndefined ->
       exists st1,
         Feed.step (Feed.Response 0 req reqDuration) st0
           = Some (st1, [Sent (Feed.poll_request st1)]) /\
         since st1 = v /\
         Feed.is_poll (Sent (Feed.poll_request st1)) = true /\
         Feed.since_of (Feed.poll_request st1) = Some v).
Proof.
  split.
  - intros Ht. rewrite changes_spec, Ht.
    match goal with |- exists st0, (_, ?s, _) = _ /\ _ => exists s end.
    split; [reflexivity|]. split.
    + simpl. now rewrite poll_request_is_poll.
    + apply poll_request_since. simpl. intros ->. discriminate.
  - intros ->. now apply falsy_cursor_asks_metadata.
Qed.

Lemma first_poll_after_cursor_known_witness :
  (exists st0,
     Feed.changes "http://h/db/" (VJson (JNum 5)) None
       = (Normal, st0, [Sent (Feed.poll_request st0)]) /\
     Feed.since_of (Feed.poll_request st0) = Some (VJson (JNum 5))) /\
  (exists st0 st1,
     Feed.changes "http://h/db/" VUndefined None
       = (Normal, st0, [Sent (Feed.info_request "http://h/db/" Feed.info_options)]) /\
     Feed.step (Feed.Response 0
                  {| status := 200;
                     parsed := Some (JObj [("update_seq"%string, JNum 10)]) |} 4) st0
       = Some (st1, [Sent (Feed.poll_request st1)]) /\
     Feed.since_of (Feed.poll_request st1) = Some (VJson (JNum 10))).
Proof.
  split.
  - destruct (proj1 (first_poll_after_cursor_known "http://h/db/" (VJson (JNum 5)) None)
                eq_refl) as (st0 & E & _ & Hs).
    exists st0. split; [exact E|exact Hs].
  - destruct (proj2 (first_poll_after_cursor_known "http://h/db/" VUndefined None)
                eq_refl) as (st0 & E & _ & Hnext).
    destruct (Hnext {| status := 200;
                       parsed := Some (JObj [("update_seq"%string, JNum 10)]) |}
                    (JObj [("update_seq"%string, JNum 10)]) (VJson (JNum 10)) 4
                    eq_refl eq_refl eq_refl ltac:(discriminate))
      as (st1 & Hstep & _ & _ & Hs).
    exists st0, st1. split; [exact E|]. split; [exact Hstep|exact Hs].
Defined.




(** ** [newUUID] *)

Section NewUUID.

Import Uuid.

Lemma on_complete_uuids urlPrefix count req d :
  Ajax.on_complete (uuids_request urlPrefix count) d req =
  match parsed req with
  | None => [Throw (ParseMessage "Failed to retrieve UUID batch.")]
  | Some resp =>
      if status req =? 200 then [Call UuidSuccess (Success resp d)]
      else [match Js.field "reason" resp with
            | Some v => Throw (ReasonMessage "Failed to retrieve UUID batch." v)
            | None => Throw TypeError
            end]
  end.
Proof.
  unfold Ajax.on_complete, Ajax.complete. simpl.
  destruct (parsed req); [|reflexivity].
  destruct (status req =? 200); reflexivity.
Qed.

Lemma newUUID_cached urlPrefix cacheNum server propagates u rest :
  newUUID urlPrefix cacheNum server propagates (Some (JArr (u :: rest))) =
  {| result := Returns (Some u); cache_after := Some (JArr rest);
     fetched := []; reported := [] |}.
Proof.
  unfold newUUID. simpl length_of.
  replace (negb (Js.truthy (VJson (JNum (Z.of_nat (length (u :: rest)))))))
    with false; [reflexivity|].
  reflexivity.
Qed.

Lemma newUUID_fetch_ok urlPrefix cacheNum server propagates uuids :
  let count := match cacheNum with None => JNum 1 | Some n => n end in
  answered (server (uuids_request urlPrefix count)).1 uuids ->
  newUUID urlPrefix cacheNum server propagates (Some (JArr [])) =
  shift_and_return uuids [uuids_request urlPrefix count] [].
Proof.
  intros count (resp & Hp & Hs & Hu). unfold newUUID. simpl length_of. simpl negb.
  fold count. destruct (server (uuids_request urlPrefix count)) as [req d].
  simpl in Hp, Hs. rewrite on_complete_uuids, Hp, Hs. simpl.
  now rewrite Hu.
Qed.

Lemma newUUID_fetch_failed urlPrefix cacheNum server propagates :
  let count := match cacheNum with None => JNum 1 | Some n => n end in
  failed (server (uuids_request urlPrefix count)).1 ->
  exists t,
    newUUID urlPrefix cacheNum server propagates (Some (JArr [])) =
    if propagates
    then {| result := Throws t; cache_after := Some (JArr []);
            fetched := [uuids_request urlPrefix count]; reported := [] |}
    else {| result := Returns None; cache_after := Some (JArr []);
            fetched := [uuids_request urlPrefix count]; reported := [t] |}.
Proof.
  intros count Hf. unfold newUUID. simpl length_of. simpl negb.
  fold count. destruct (server (uuids_request urlPrefix count)) as [req d].
  simpl in Hf. rewrite on_complete_uuids.
  destruct (parsed req) as [resp|] eqn:Hp.
  - destruct Hf as [Hf|Hf]; [congruence|].
    apply Z.eqb_neq in Hf. rewrite Hf.
    destruct (Js.field "reason" resp); simpl; eexists; destruct propagates; reflexivity.
  - simpl. eexists. destruct propagates; reflexivity.
Qed.

End NewUUID.

(** C8.  With identifiers in the cache, [newUUID] makes no request, returns
    the first and leaves the rest.  With an empty cache it makes one
    synchronous request for [cacheNum] identifiers (1 when [cacheNum] is
    omitted); the answer replaces the cache, and its first identifier is
    removed and returned.  When the request fails, the cache stays empty and
    no identifier is returned: the exception reaches the caller, or is
    reported and [newUUID] returns [undefined]. *)
Theorem newUUID_takes_from_cache_or_fetches
    (urlPrefix : string) (cacheNum : option json)
    (server : request -> xhr * Z) (propagates : bool) :
  let count := match cacheNum with None => JNum 1 | Some n => n end in
  let r := Uuid.uuids_request urlPrefix count in
  (forall u rest,
      Uuid.newUUID urlPrefix cacheNum server propagates (Some (JArr (u :: rest))) =
      {| result := Returns (Some u); cache_after := Some (JArr rest);
         fetched := []; reported := [] |}) /\
  (data (sent r) = VJson (JObj [("count"%string, count)]) /\ async (sent r) = false) /\
  (forall u rest,
      Uuid.answered (server r).1 (Some (JArr (u :: rest))) ->
      Uuid.newUUID urlPrefix cacheNum server propagates (Some (JArr [])) =
      {| result := Returns (Some u); cache_after := Some (JArr rest);
         fetched := [r]; reported := [] |}) /\
  (Uuid.failed (server r).1 ->
   let res := Uuid.newUUID urlPrefix cacheNum server propagates (Some (JArr [])) in
   fetched res = [r] /\ cache_after res = Some (JArr []) /\
   (forall u, result res <> Returns (Some u)) /\
   (if propagates then exists t, result res = Throws t
    else result res = Returns None /\ reported res <> [])).
Proof.
  intros count r. split; [|split; [|split]].
  - intros u rest. apply newUUID_cached.
  - split; reflexivity.
  - intros u rest Ha.
    rewrite (newUUID_fetch_ok urlPrefix cacheNum server propagates _ Ha). reflexivity.
  - intros Hf res. subst res.
    destruct (newUUID_fetch_failed urlPrefix cacheNum server propagates Hf) as (t & E).
    rewrite E. destruct propagates; simpl.
    + split; [reflexivity|]. split; [reflexivity|]. split; [discriminate|eauto].
    + split; [reflexivity|]. split; [reflexivity|]. split; [discriminate|].
      split; [reflexivity|discriminate].
Qed.

Lemma newUUID_takes_from_cache_or_fetches_witness :
  let batch := JObj [("uuids"%string, JArr [JStr "a1"; JStr "b2"; JStr "c3"])] in
  let server := fun _ : request => ({| status := 200; parsed := Some batch |}, 7) in
  let down := fun _ : request => ({| status := 500; parsed := None |}, 7) in
  Uuid.newUUID "http://h" (Some (JNum 3)) server true (Some (JArr [])) =
    {| result := Returns (Some (JStr "a1"));
       cache_after := Some (JArr [JStr "b2"; JStr "c3"]);
       fetched := [Uuid.uuids_request "http://h" (JNum 3)]; reported := [] |} /\
  forall u, result (Uuid.newUUID "http://h" None down true (Some (JArr [])))
            <> Returns (Some u).
Proof.
  intros batch server down. split.
  - refine (proj1 (proj2 (proj2
      (newUUID_takes_from_cache_or_fetches "http://h" (Some (JNum 3)) server true)))
      (JStr "a1") [JStr "b2"; JStr "c3"] _).
    exists batch. split; [reflexivity|]. split; reflexivity.
  - refine (proj1 (proj2 (proj2 (proj2 (proj2 (proj2
      (newUUID_takes_from_cache_or_fetches "http://h" None down true))) _)))).
    left. reflexivity.
Defined.

(** ** [bulkRemove] *)

Section BulkRemove.

Import Bulk.

Lemma delete_doc_lookup l l' (h : gmap loc (gmap string json)) :
  delete_doc l h !! l' = if decide (l = l') then deleted <$> h !! l else h !! l'.
Proof. unfold delete_doc. apply lookup_alter. Qed.

Lemma deleted_twice (o : option (gmap string json)) :
  deleted <$> (deleted <$> o) = deleted <$> o.
Proof.
  destruct o as [doc|]; [|reflexivity]. simpl. f_equal.
  unfold deleted. apply insert_insert_eq.
Qed.

(** Every object in the heap is either untouched or marked. *)
Lemma mark_deleted_either elems : forall (h h' : gmap loc (gmap string json)) r l,
  mark_deleted elems h = (r, h') ->
  h' !! l = h !! l \/ h' !! l = deleted <$> h !! l.
Proof.
  induction elems as [|s elems IH]; intros h h' r l E; simpl in E.
  - injection E as _ <-. now left.
  - destruct s as [l0| | |j].
    + destruct (IH _ _ _ l E) as [H|H]; rewrite H, delete_doc_lookup;
        case_decide; subst; auto. right. apply deleted_twice.
    + injection E as _ <-. now left.
    + injection E as _ <-. now left.
    + eauto.
Qed.

Lemma mark_deleted_in elems : forall (h h' : gmap loc (gmap string json)) l,
  mark_deleted elems h = (Normal, h') -> Ref l ∈ elems ->
  h' !! l = deleted <$> h !! l.
Proof.
  induction elems as [|s elems IH]; intros h h' l E Hin; simpl in E.
  - now apply elem_of_nil in Hin.
  - apply elem_of_cons in Hin. destruct s as [l0| | |j]; try discriminate.
    + destruct Hin as [Heq|Hin].
      * injection Heq as ->.
        destruct (mark_deleted_either _ _ _ _ l0 E) as [H|H];
          rewrite H, delete_doc_lookup; rewrite decide_True by reflexivity;
          [reflexivity|apply deleted_twice].
      * rewrite (IH _ _ _ E Hin), delete_doc_lookup.
        case_decide; subst; [apply deleted_twice|reflexivity].
    + destruct Hin as [Heq|Hin]; [discriminate|]. eauto.
Qed.

Lemma mark_deleted_out elems : forall (h h' : gmap loc (gmap string json)) r l,
  mark_deleted elems h = (r, h') -> Ref l ∉ elems -> h' !! l = h !! l.
Proof.
  induction elems as [|s elems IH]; intros h h' r l E Hout; simpl in E.
  - now injection E as _ <-.
  - apply not_elem_of_cons in Hout. destruct Hout as [Hne Hout].
    destruct s as [l0| | |j].
    + rewrite (IH _ _ _ _ E Hout), delete_doc_lookup.
      case_decide; subst; [contradiction|reflexivity].
    + now injection E as _ <-.
    + now injection E as _ <-.
    + eauto.
Qed.

Lemma mark_deleted_normal elems : forall (h : gmap loc (gmap string json)),
  Forall (fun s => s <> Undefined /\ s <> Null) elems ->
  exists h', mark_deleted elems h = (Normal, h').
Proof.
  induction elems as [|s elems IH]; intros h Hok; simpl.
  - eauto.
  - apply Forall_cons in Hok. destruct Hok as [[H1 H2] Hok].
    destruct s; try contradiction; eauto.
Qed.

End BulkRemove.

(** C10.  [bulkRemove] writes [_deleted = true] into every document object
    of [docs.docs], in the caller's heap, before it builds the request: the
    objects the caller holds are changed when [bulkRemove] returns, whether
    or not a request went out and whatever becomes of it; other objects are
    left alone, and the request body is written from the marked objects. *)
Theorem bulkRemove_marks_caller_documents
    (db_uri : string) (elems : list slot) (others : list (string * json))
    (options : option object) (h : gmap loc (gmap string json)) :
  Forall (fun s => s <> Undefined /\ s <> Null) elems ->
  let res := Bulk.bulkRemove db_uri elems others options h in
  (forall l doc,
      Ref l ∈ elems -> h !! l = Some doc ->
      heap_after res !! l = Some (<["_deleted"%string := JBool true]> doc)) /\
  (forall l, Ref l ∉ elems -> heap_after res !! l = h !! l) /\
  (forall r, r ∈ (issued res).2 ->
             data (sent r) = VJson (Bulk.toJSON (heap_after res) elems others)) /\
  (options = None -> issued res = (Raised TypeError, [])).
Proof.
  intros Hok res. subst res. unfold Bulk.bulkRemove.
  destruct (mark_deleted_normal elems h Hok) as (h' & E). rewrite E.
  assert (Hin : forall l doc, Ref l ∈ elems -> h !! l = Some doc ->
                  h' !! l = Some (<["_deleted"%string := JBool true]> doc)).
  { intros l doc Hl Hd. rewrite (mark_deleted_in _ _ _ _ E Hl), Hd. reflexivity. }
  assert (Hout : forall l, Ref l ∉ elems -> h' !! l = h !! l).
  { intros l Hl. apply (mark_deleted_out _ _ _ _ _ E Hl). }
  destruct options as [options|]; simpl.
  - split; [exact Hin|]. split; [exact Hout|]. split; [|discriminate].
    intros r Hr. apply list_elem_of_singleton in Hr. subst r. reflexivity.
  - split; [exact Hin|]. split; [exact Hout|]. split; [|reflexivity].
    intros r Hr. now apply elem_of_nil in Hr.
Qed.

Lemma bulkRemove_marks_caller_documents_witness :
  let doc1 : gmap string json := {[ "_id"%string := JStr "a"; "_rev"%string := JStr "1-x" ]} in
  let doc2 : gmap string json := {[ "_id"%string := JStr "b"; "_rev"%string := JStr "2-y" ]} in
  let h : gmap loc (gmap string json) := {[ 1%positive := doc1; 2%positive := doc2 ]} in
  let res := Bulk.bulkRemove "http://h/db/" [Ref 1%positive; Ref 2%positive] []
               (Some [("success"%string, VFun (Callback 1))]) h in
  heap_after res !! 2%positive = Some (<["_deleted"%string := JBool true]> doc2).
Proof.
  intros doc1 doc2 h res.
  refine (proj1 (bulkRemove_marks_caller_documents "http://h/db/"
                   [Ref 1%positive; Ref 2%positive] []
                   (Some [("success"%string, VFun (Callback 1))]) h _)
            2%positive doc2 _ _).
  - repeat constructor; discriminate.
  - apply elem_of_cons. right. apply elem_of_cons. now left.
  - reflexivity.
Defined.

(** ** More about [encodeDocId]: reading the path back *)

Section DocIdRoundTrip.

Lemma decode_encode_byte c t :
  Uri.percent_decode (Str.encode_byte c +:+ t) = String c (Uri.percent_decode t).
Proof.
  destruct c as [[] [] [] [] [] [] [] []]; destruct t as [|x [|y t]]; reflexivity.
Qed.

Lemma decode_encodeURIComponent s :
  Uri.percent_decode (Str.encodeURIComponent s) = s.
Proof.
  induction s as [|c s IH]; [reflexivity|].
  cbn [Str.encodeURIComponent]. now rewrite decode_encode_byte, IH.
Qed.

Lemma decode_design_prefix t :
  Uri.percent_decode ("_design/" +:+ t) = ("_design/" +:+ Uri.percent_decode t)%string.
Proof. destruct t as [|x [|y t]]; reflexivity. Qed.

Lemma before_after_first sep s :
  Str.occurs sep s = true ->
  s = (Str.before_first sep s +:+ String sep (Str.after_first sep s))%string.
Proof.
  induction s as [|c s IH]; simpl; [discriminate|].
  destruct (Ascii.eqb c sep) eqn:E; simpl.
  - apply Ascii.eqb_eq in E. now subst.
  - intros H.
    change (String c s =
            String c (Str.before_first sep s +:+ String sep (Str.after_first sep s))).
    f_equal. now apply IH.
Qed.

Lemma before_first_all sep s : Str.occurs sep s = false -> Str.before_first sep s = s.
Proof.
  induction s as [|c s IH]; simpl; [reflexivity|].
  destruct (Ascii.eqb c sep); simpl; [discriminate|].
  intros H. now rewrite IH.
Qed.

Lemma encodeDocId_cases docID :
  encodeDocId docID =
  if bool_decide (Str.before_first "/" docID = "_design"%string)
  then ("_design/" +:+ Str.encodeURIComponent (Str.after_first "/" docID))%string
  else Str.encodeURIComponent docID.
Proof.
  unfold encodeDocId. rewrite split_head.
  destruct (bool_decide (Str.before_first "/" docID = "_design"%string)) eqn:E.
  - apply bool_decide_eq_true in E. rewrite E.
    rewrite bool_decide_eq_true_2 by reflexivity.
    now rewrite (split_tail_join "/").
  - apply bool_decide_eq_false in E.
    rewrite bool_decide_eq_false_2; [reflexivity|]. congruence.
Qed.

Lemma decode_encodeDocId docID :
  Uri.percent_decode (encodeDocId docID) =
  if bool_decide (docID = "_design"%string) then "_design/"%string else docID.
Proof.
  rewrite encodeDocId_cases.
  case_bool_decide as Hd.
  - rewrite decode_design_prefix, decode_encodeURIComponent.
    destruct (Str.occurs "/" docID) eqn:Ho.
    + rewrite bool_decide_eq_false_2.
      * rewrite (before_after_first "/" docID Ho) at 2. now rewrite Hd.
      * intros ->. discriminate.
    + rewrite before_first_all in Hd by exact Ho. subst docID.
      rewrite bool_decide_eq_true_2 by reflexivity. reflexivity.
  - rewrite decode_encodeURIComponent.
    rewrite bool_decide_eq_false_2; [reflexivity|].
    intros ->. now apply Hd.
Qed.

End DocIdRoundTrip.

(** X1.  Percent-decoding the path [encodeDocId] gives returns the
    identifier, for every identifier but the bare [_design], whose path is
    that of [_design/].  So two identifiers share a path only if they are
    that pair. *)
Theorem encodeDocId_path_reads_back :
  (forall docID, docID <> "_design"%string ->
                 Uri.percent_decode (encodeDocId docID) = docID) /\
  encodeDocId "_design" = encodeDocId "_design/" /\
  (forall a b,
      encodeDocId a = encodeDocId b ->
      a = b \/
      (a = "_design"%string /\ b = "_design/"%string) \/
      (a = "_design/"%string /\ b = "_design"%string)).
Proof.
  split; [|split].
  - intros docID Hne. rewrite decode_encodeDocId.
    now rewrite bool_decide_eq_false_2.
  - reflexivity.
  - intros a b H. apply (f_equal Uri.percent_decode) in H.
    rewrite !decode_encodeDocId in H.
    repeat case_bool_decide; subst; auto.
Qed.

Lemma encodeDocId_path_reads_back_witness :
  Uri.percent_decode (encodeDocId "_design/app/by date") = "_design/app/by date"%string.
Proof.
  refine (proj1 encodeDocId_path_reads_back "_design/app/by date"%string _).
  discriminate.
Defined.

(** ** More about [ajax]: which handler is called *)

Section AjaxOutcome.





End AjaxOutcome.







(** ** The database requests *)

Section DbRequests.

Lemma get_delete_eq name o : Js.get name (Db.delete name o) = VUndefined.
Proof.
  unfold Js.get, Db.delete. induction o as [|[k w] o IH]; simpl; [reflexivity|].
  destruct (String.eqb k name) eqn:E; simpl; [exact IH|]. now rewrite E.
Qed.

Lemma get_delete_ne name k o : k <> name -> Js.get name (Db.delete k o) = Js.get name o.
Proof.
  intros Hne. unfold Js.get, Db.delete. induction o as [|[k' w] o IH]; simpl; [reflexivity|].
  destruct (String.eqb k' k) eqn:E; simpl.
  - apply String.eqb_eq in E. subst k'.
    apply String.eqb_neq in Hne. rewrite Hne. exact IH.
  - destruct (String.eqb k' name); [reflexivity|exact IH].
Qed.

Lemma assoc_delete_eq name o : Js.assoc name (Db.delete name o) = None.
Proof.
  unfold Db.delete. induction o as [|[k w] o IH]; simpl; [reflexivity|].
  destruct (String.eqb k name) eqn:E; simpl; [exact IH|]. now rewrite E.
Qed.


End DbRequests.



(** X6.  [allDocs] with a truthy [options.keys] (an empty array counts)
    sends a POST whose body is [{"keys": keys}], writes no [keys] parameter
    into the query, and deletes [keys] from the caller's options object,
    leaving its other properties.  With [keys] absent or falsy it sends a
    GET with a null body, leaves the object alone, and a falsy [keys] that
    is present stays in the query. *)
Theorem allDocs_moves_keys_into_body (db_uri : string) (o : object) :
  NoDup o.*1 ->
  exists r o',
    Db.allDocs db_uri (Some o)
      = {| raised := None; caller_options := Some o'; made := [r] |} /\
    search (sent r) = Ajax.encodeOptions o' /\
    (Js.truthy (Js.get "keys" o) = true ->
       type (sent r) = "POST"%string /\
       data (sent r) = VJson (JObj (Db.stringify_props [("keys"%string, Js.get "keys" o)])) /\
       Ajax.search_param "keys" r = None /\
       Js.get "keys" o' = VUndefined /\
       (forall name, name <> "keys"%string -> Js.get name o' = Js.get name o)) /\
    (Js.truthy (Js.get "keys" o) = false ->
       type (sent r) = "GET"%string /\ data (sent r) = VJson JNull /\ o' = o /\
       Ajax.search_param "keys" r = Js.assoc "keys" o).
Proof.
  intros Hnd. unfold Db.allDocs, Db.take_keys.
  destruct (Js.truthy (Js.get "keys" o)) eqn:Hk; eexists _, _;
    (split; [reflexivity|]); (split; [reflexivity|]); split; try discriminate; intros _.
  - split; [reflexivity|]. split; [reflexivity|]. split.
    + unfold Ajax.search_param. simpl.
      rewrite find_encodeOptions by (apply (bool_decide_eq_false_1 _); reflexivity).
      apply assoc_delete_eq.
    + split; [apply get_delete_eq|]. intros name Hne. apply get_delete_ne. congruence.
  - split; [reflexivity|]. split; [reflexivity|]. split; [reflexivity|].
    unfold Ajax.search_param. simpl.
    apply find_encodeOptions. apply (bool_decide_eq_false_1 _). reflexivity.
Qed.

Lemma allDocs_moves_keys_into_body_witness :
  exists r,
    made (Db.allDocs "http://h/db/"
            (Some [("keys"%string, VJson (JArr [])); ("limit"%string, VJson (JNum 5));
                   ("success"%string, VFun (Callback 1))])) = [r] /\
    type (sent r) = "POST"%string /\ Ajax.search_param "keys" r = None.
Proof.
  destruct (allDocs_moves_keys_into_body "http://h/db/"
              [("keys"%string, VJson (JArr [])); ("limit"%string, VJson (JNum 5));
               ("success"%string, VFun (Callback 1))])
    as (r & o' & E & _ & Hpost & _).
  - apply (bool_decide_unpack _). vm_compute. exact I.
  - destruct (Hpost eq_refl) as (Ht & _ & Hs & _).
    exists r. split; [exact (f_equal made E)|]. split; [exact Ht|exact Hs].
Defined.

Section DbQueries.

Lemma assoc_delete_ne name k o :
  k <> name -> Js.assoc name (Db.delete k o) = Js.assoc name o.
Proof.
  intros Hne. unfold Db.delete. induction o as [|[k' w] o IH]; simpl; [reflexivity|].
  destruct (String.eqb k' k) eqn:E; simpl.
  - apply String.eqb_eq in E. subst k'.
    apply String.eqb_neq in Hne. rewrite Hne. exact IH.
  - destruct (String.eqb k' name); [reflexivity|exact IH].
Qed.

Lemma assoc_of_key name (o : object) :
  name ∈ o.*1 -> Js.assoc name o = Some (Js.get name o).
Proof.
  unfold Js.get. induction o as [|[k w] o IH]; csimpl; intros Hin.
  - now apply elem_of_nil in Hin.
  - destruct (String.eqb k name) eqn:E; [reflexivity|].
    apply elem_of_cons in Hin. destruct Hin as [->|Hin].
    + now rewrite String.eqb_refl in E.
    + specialize (IH Hin). destruct (Js.assoc name o); [reflexivity|discriminate].
Qed.

Lemma set_keeps_key name k v (o : object) : name ∈ o.*1 -> name ∈ (Js.set k v o).*1.
Proof.
  intros Hin. rewrite set_keys. case_bool_decide; [exact Hin|].
  apply elem_of_app. now left.
Qed.

Lemma extend_keeps_key name (s : object) : forall t : object,
  name ∈ t.*1 -> name ∈ (Js.extend t s).*1.
Proof.
  unfold Js.extend. induction s as [|[k w] s IH]; intros t Hin; simpl; [exact Hin|].
  apply IH. destruct w; simpl; try exact Hin; now apply set_keeps_key.
Qed.

Lemma split_no_sep sep a : Str.occurs sep a = false -> Str.split sep a = [a].
Proof.
  induction a as [|c a IH]; simpl; [reflexivity|].
  rewrite Ascii.eqb_sym. destruct (Ascii.eqb sep c) eqn:E; simpl; [discriminate|].
  intros H. now rewrite (IH H).
Qed.

Lemma split_app_sep sep a b :
  Str.occurs sep a = false ->
  Str.split sep (a +:+ String sep b) = a :: Str.split sep b.
Proof.
  induction a as [|c a IH]; simpl.
  - intros _. now rewrite Ascii.eqb_refl.
  - rewrite Ascii.eqb_sym. destruct (Ascii.eqb sep c) eqn:E; simpl; [discriminate|].
    intros H. change ((a +:+ String sep b)%string) with (a +:+ String sep b) in *.
    now rewrite (IH H).
Qed.

End DbQueries.

(** X7.  [allDesignDocs] asks [allDocs] for the range of design documents
    on an object of its own: the query carries [startkey] and [endkey],
    JSON-encoded, with the caller's values where the caller gave them and
    ["_design"] and ["_design0"] otherwise; the caller's options object is
    left as it was, even when it holds [keys]. *)
Theorem allDesignDocs_range_defaults (db_uri : string) (options : option object) :
  NoDup (default [] options).*1 ->
  exists r,
    made (Db.allDesignDocs db_uri options) = [r] /\
    raised (Db.allDesignDocs db_uri options) = None /\
    caller_options (Db.allDesignDocs db_uri options) = options /\
    Ajax.search_param "startkey" r =
      Some (match Js.get "startkey" (default [] options) with
            | VUndefined => VJson (JStr "_design")
            | v => v
            end) /\
    Ajax.search_param "endkey" r =
      Some (match Js.get "endkey" (default [] options) with
            | VUndefined => VJson (JStr "_design0")
            | v => v
            end) /\
    Forall (fun p => pname p = "startkey"%string \/ pname p = "endkey"%string ->
                     as_json p = true) (search (sent r)).
Proof.
  intros Hnd. set (o := default [] options) in *.
  set (fresh := Js.extend [("startkey"%string, VJson (JStr "_design"));
                           ("endkey"%string, VJson (JStr "_design0"))] o).
  assert (Hget : forall name,
             name ∈ ["startkey"; "endkey"]%string ->
             Js.assoc name fresh = Some (Js.get name fresh)).
  { intros name Hin. apply assoc_of_key. apply extend_keeps_key.
    revert Hin. cbn. rewrite !elem_of_cons. tauto. }
  assert (Hflag : forall o', Forall (fun p => pname p = "startkey"%string \/
                                    pname p = "endkey"%string -> as_json p = true)
                               (Ajax.encodeOptions o')).
  { intros o'. unfold Ajax.encodeOptions.
    induction o' as [|[k w] o' IH]; simpl; [constructor|].
    case_bool_decide; [exact IH|]. constructor; [|exact IH].
    simpl. intros [->| ->]; reflexivity. }
  unfold Db.allDesignDocs, Db.allDocs, Db.take_keys. fold o. fold fresh.
  destruct (Js.truthy (Js.get "keys" fresh)); eexists;
    (split; [reflexivity|]); (split; [reflexivity|]); (split; [reflexivity|]);
    unfold Ajax.search_param; simpl;
    rewrite !find_encodeOptions by (apply (bool_decide_eq_false_1 _); reflexivity);
    rewrite ?assoc_delete_ne by discriminate;
    rewrite !Hget by (rewrite !elem_of_cons; tauto);
    unfold fresh; rewrite !get_extend by exact Hnd;
    (split; [reflexivity|]); (split; [reflexivity|]); apply Hflag.
Qed.

Lemma allDesignDocs_range_defaults_witness :
  exists r,
    made (Db.allDesignDocs "http://h/db/"
            (Some [("endkey"%string, VJson (JStr "_design/m"));
                   ("success"%string, VFun (Callback 1))])) = [r] /\
    Ajax.search_param "startkey" r = Some (VJson (JStr "_design")) /\
    Ajax.search_param "endkey" r = Some (VJson (JStr "_design/m")).
Proof.
  destruct (allDesignDocs_range_defaults "http://h/db/"
              (Some [("endkey"%string, VJson (JStr "_design/m"));
                     ("success"%string, VFun (Callback 1))]))
    as (r & Hm & _ & _ & Hs & He & _).
  - apply (bool_decide_unpack _). vm_compute. exact I.
  - exists r. split; [exact Hm|]. split; [exact Hs|exact He].
Defined.

(** X8.  [view] builds the address from the first two '/'-separated
    segments of the name, written as they are: further segments are
    dropped, and a name without '/' gives the view name [undefined]. *)
Theorem view_address_from_two_segments
    (db_uri design viewname rest : string) (options : option object) :
  Str.occurs "/" design = false -> Str.occurs "/" viewname = false ->
  let address c := (fun r => url (sent r)) <$> made c in
  address (Db.view db_uri (design +:+ "/" +:+ viewname) options)
    = [(db_uri +:+ "_design/" +:+ design +:+ "/_view/" +:+ viewname)%string] /\
  address (Db.view db_uri (design +:+ "/" +:+ viewname +:+ "/" +:+ rest) options)
    = [(db_uri +:+ "_design/" +:+ design +:+ "/_view/" +:+ viewname)%string] /\
  address (Db.view db_uri design options)
    = [(db_uri +:+ "_design/" +:+ design +:+ "/_view/" +:+ "undefined")%string].
Proof.
  intros Hd Hv address. subst address. unfold Db.view.
  destruct (Db.take_keys (default [] options)) as [[method body] o].
  split; [|split]; simpl.
  - change ((design +:+ "/" +:+ viewname)%string)
      with (design +:+ String "/" viewname).
    rewrite (split_app_sep "/" design viewname Hd), (split_no_sep "/" viewname Hv).
    reflexivity.
  - change ((design +:+ "/" +:+ viewname +:+ "/" +:+ rest)%string)
      with (design +:+ String "/" (viewname +:+ String "/" rest)).
    rewrite (split_app_sep "/" design _ Hd), (split_app_sep "/" viewname rest Hv).
    reflexivity.
  - rewrite (split_no_sep "/" design Hd). reflexivity.
Qed.

Lemma view_address_from_two_segments_witness :
  (fun r => url (sent r)) <$> made (Db.view "http://h/db/" "app/by_date/x" None)
    = ["http://h/db/_design/app/_view/by_date"%string].
Proof.
  refine (proj1 (proj2 (view_address_from_two_segments
            "http://h/db/" "app" "by_date" "x" None _ _))); reflexivity.
Defined.





(** X11.  [copyDoc] completes through a callback of its own, not through
    the one of [ajax]: a body that is no JSON raises a SyntaxError and no
    handler is called, where [ajax] would have called the error handler;
    the success handler is called exactly on status 201, whatever
    [successStatus] the options hold; and with [ajaxOptions] omitted
    [copyDoc] raises before any request. *)
Theorem copyDoc_completes_on_its_own
    (db_uri docId : string) (o ajaxOptions : object) (req : xhr) (hs he : handler) :
  NoDup o.*1 ->
  Js.get "success" o = VFun hs -> Js.get "error" o = VFun he ->
  exists complete,
    Copy.copyDoc db_uri docId (Some o) (Some ajaxOptions)
      = Some ((db_uri +:+ encodeDocId docId)%string, complete) /\
    (parsed req = None ->
       complete req = [CopyThrow SyntaxError] /\
       forall obj msg d,
         Ajax.on_complete (Ajax.ajax obj o msg) d req
           = [Call he (ParseFailure (status req))]) /\
    (forall resp, parsed req = Some resp ->
       (CopySuccess (VFun hs) resp ∈ complete req <-> status req = 201)) /\
    Copy.copyDoc db_uri docId (Some o) None = None.
Proof.
  intros Hnd Hs He. eexists. split; [reflexivity|]. split; [|split; [|reflexivity]].
  - intros Hp. split.
    + unfold Copy.complete. now rewrite Hp.
    + intros obj msg d. unfold Ajax.on_complete, Ajax.complete. rewrite Hp.
      rewrite (ajax_keeps_property obj o msg "error" Hnd) by discriminate.
      rewrite He. reflexivity.
  - intros resp Hp. unfold Copy.complete. rewrite Hp, Hs, He. cbn [Js.truthy].
    destruct (status req =? 201) eqn:E.
    + apply Z.eqb_eq in E. split; [auto|]. intros _.
      apply list_elem_of_singleton. reflexivity.
    + apply Z.eqb_neq in E. split; [|contradiction]. intros Hin. exfalso.
      destruct (Js.field "error" resp), (Js.field "reason" resp);
        apply list_elem_of_singleton in Hin; discriminate.
Qed.

Lemma copyDoc_completes_on_its_own_witness :
  exists complete,
    Copy.copyDoc "http://h/db/" "a/b"
      (Some [("success"%string, VFun (Callback 1)); ("error"%string, VFun (Callback 2))])
      (Some []) = Some ("http://h/db/a%2Fb"%string, complete) /\
    complete {| status := 201; parsed := None |} = [CopyThrow SyntaxError].
Proof.
  destruct (copyDoc_completes_on_its_own "http://h/db/" "a/b"
              [("success"%string, VFun (Callback 1)); ("error"%string, VFun (Callback 2))]
              [] {| status := 201; parsed := None |} (Callback 1) (Callback 2)
              ltac:(apply (bool_decide_unpack _); vm_compute; exact I)
              eq_refl eq_refl)
    as (complete & E & Hbad & _).
  exists complete. split; [exact E|]. exact (proj1 (Hbad eq_refl)).
Defined.

(** ** More about the change feed *)

Section FeedInvariants.

Import Feed.


(** With nothing pending, nothing ever happens again: only [stop()] and
    [onChange] can be called. *)
Lemma idle_forever es : forall st st' log,
  ok st -> tasks st = [] -> run es st = Some (st', log) ->
  tasks st' = [] /\ requests log = [] /\ delays log = [] /\
  Forall (fun o => is_invocation o = false) log.
Proof.
  induction es as [|e es IH]; intros st st' log Hok Ht Hrun; simpl in Hrun.
  - injection Hrun as <- <-. repeat split; [exact Ht|constructor].
  - destruct (step e st) as [[st1 out1]|] eqn:E; [|discriminate].
    destruct (run es st1) as [[st2 out2]|] eqn:E2; [|discriminate].
    injection Hrun as <- <-.
    apply step_transition in E; [|exact Hok].
    pose proof (transition_ok _ _ _ _ Hok E) as (Hok1 & _).
    assert (Hq : tasks st1 = [] /\ requests out1 = [] /\ delays out1 = [] /\
                 Forall (fun o => is_invocation o = false) out1).
    { inversion E; subst; try (rewrite Ht in *; discriminate);
        (split; [exact Ht|]); repeat split; repeat constructor. }
    destruct Hq as (Ht1 & Hr1 & Hd1 & Hi1).
    destruct (IH st1 st2 out2 Hok1 Ht1 E2) as (Ht2 & Hr2 & Hd2 & Hi2).
    split; [exact Ht2|]. unfold requests, delays in *.
    rewrite !omap_app, Hr1, Hr2, Hd1, Hd2.
    repeat split. apply Forall_app. now split.
Qed.

Lemma hooks_quiet hooks :
  Forall hook_output hooks ->
  requests (hooks ++ []) = [] /\ delays (hooks ++ []) = [] /\
  Forall (fun o => is_invocation o = false) (hooks ++ []).
Proof.
  intros Hh. rewrite app_nil_r.
  split; [now apply requests_hooks|]. split; [now apply delays_hooks|].
  now apply hook_not_invocation.
Qed.

End FeedInvariants.





(** X14.  The metadata request that [changes] makes when it has no cursor
    is never retried: when it fails (the body is no JSON, or the status is
    not 200) an exception leaves the callback, nothing is left pending, and
    the subscription never sends a request or sets a timer again. *)
Theorem failed_metadata_request_is_final
    (st : subscription) (req : xhr) (reqDuration : Z) :
  Feed.reachable st ->
  tasks st = [Pending (Feed.info_request (uri st) Feed.info_options)] ->
  parsed req = None \/ status req <> 200 ->
  exists st' t,
    Feed.step (Feed.Response 0 req reqDuration) st = Some (st', [Uncaught t]) /\
    tasks st' = [] /\
    forall es st'' log,
      Feed.run es st' = Some (st'', log) ->
      Feed.requests log = [] /\ Feed.delays log = [].
Proof.
  intros Hr Ht Hf. pose proof (reachable_ok _ Hr) as Hok.
  destruct (step_info_other st req reqDuration Ht) as (t & E).
  { intros info Hp Hs. destruct Hf; congruence. }
  exists (Feed.set_tasks [] st), t. split; [exact E|]. split; [reflexivity|].
  intros es st'' log Hrun.
  assert (Hok' : ok (Feed.set_tasks [] st)).
  { apply (transition_ok st (Feed.Response 0 req reqDuration) _ [Uncaught t] Hok).
    apply step_transition; [exact Hok|exact E]. }
  destruct (idle_forever es _ _ _ Hok' eq_refl Hrun) as (_ & H1 & H2 & _).
  now split.
Qed.

Lemma failed_metadata_request_is_final_witness :
  let st := (Feed.changes "http://h/db/" VUndefined None).1.2 in
  exists st' t,
    Feed.step (Feed.Response 0 {| status := 404; parsed := Some (JObj []) |} 3) st
      = Some (st', [Uncaught t]) /\
    tasks st' = [].
Proof.
  intros st.
  destruct (failed_metadata_request_is_final st
              {| status := 404; parsed := Some (JObj []) |} 3)
    as (st' & t & E & Ht & _).
  - exists "http://h/db/"%string, VUndefined, None, st,
      [Sent (Feed.info_request "http://h/db/" Feed.info_options)], [], [].
    split; [reflexivity|]. split; reflexivity.
  - reflexivity.
  - right. discriminate.
  - exists st', t. split; [exact E|exact Ht].
Defined.

(** X15.  When [stop()] was called while a poll is in flight, that poll is
    the last thing the subscription does: whatever its response and
    whatever is called afterwards, no request is sent, no timer is set and
    no listener is called. *)
Theorem stopped_feed_ends_with_the_poll_in_flight
    (st : subscription) (req : xhr) (reqDuration : Z) (es : list Feed.event)
    (st' : subscription) (log : list output) :
  Feed.reachable st -> active st = false ->
  tasks st = [Pending (Feed.poll_request st)] ->
  Feed.run (Feed.Response 0 req reqDuration :: es) st = Some (st', log) ->
  Feed.requests log = [] /\ Feed.delays log = [] /\
  (forall f resp, Invoked f resp ∉ log) /\ tasks st' = [].
Proof.
  intros Hr Ha Ht Hrun. pose proof (reachable_ok _ Hr) as Hok.
  cbn [Feed.run] in Hrun.
  destruct (Feed.step (Feed.Response 0 req reqDuration) st) as [[st1 out1]|] eqn:E;
    [|discriminate].
  destruct (Feed.run es st1) as [[st2 out2]|] eqn:E2; [|discriminate].
  injection Hrun as <- <-.
  apply step_transition in E; [|exact Hok].
  pose proof (transition_ok _ _ _ _ Hok E) as (Hok1 & _).
  assert (Hq : tasks st1 = [] /\ Feed.requests out1 = [] /\ Feed.delays out1 = [] /\
               Forall (fun o => Feed.is_invocation o = false) out1).
  { inversion E; subst; try congruence; try (rewrite Ht in *; discriminate);
      (split; [reflexivity|]); now apply hooks_quiet. }
  destruct Hq as (Ht1 & Hr1 & Hd1 & Hi1).
  destruct (idle_forever es _ _ _ Hok1 Ht1 E2) as (Ht2 & Hr2 & Hd2 & Hi2).
  unfold Feed.requests, Feed.delays in *.
  rewrite !omap_app, Hr1, Hr2, Hd1, Hd2.
  split; [reflexivity|]. split; [reflexivity|]. split; [|exact Ht2].
  intros f resp Hin.
  assert (Hall : Forall (fun o => Feed.is_invocation o = false) (out1 ++ out2))
    by (apply Forall_app; now split).
  rewrite Forall_forall in Hall. specialize (Hall _ Hin). discriminate.
Qed.

Lemma stopped_feed_ends_with_the_poll_in_flight_witness :
  let st0 := (Feed.changes "http://h/db/" (VJson (JNum 5)) None).1.2 in
  let st := Feed.set_active false (Feed.set_listeners [Listener 1 false []] st0) in
  let batch := {| status := 200; parsed := Some (JObj [("last_seq"%string, JNum 9)]) |} in
  let log := [Registered (Listener 2 false [])] in
  Feed.requests log = [] /\ Feed.delays log = [] /\
  (forall f resp, Invoked f resp ∉ log) /\
  tasks (Feed.set_listeners [Listener 1 false []; Listener 2 false []]
           (Feed.set_timeout 100 (Feed.set_tasks [] st))) = [].
Proof.
  intros st0 st batch log.
  refine (stopped_feed_ends_with_the_poll_in_flight st batch 3
            [Feed.CallOnChange (Listener 2 false [])]
            (Feed.set_listeners [Listener 1 false []; Listener 2 false []]
               (Feed.set_timeout 100 (Feed.set_tasks [] st)))
            log _ _ _ _).
  - exists "http://h/db/"%string, (VJson (JNum 5)), None, st0,
      [Sent (Feed.poll_request st0)],
      [Feed.CallOnChange (Listener 1 false []); Feed.CallStop],
      [Registered (Listener 1 false []); Stopped].
    split; [reflexivity|]. split; reflexivity.
  - reflexivity.
  - reflexivity.
  - vm_compute. reflexivity.
Defined.

Section PollQuery.

Import Feed.

Lemma encodeOptions_no_handlers (o : object) p :
  p ∈ Ajax.encodeOptions o -> pname p ∉ Ajax.handler_names.
Proof.
  unfold Ajax.encodeOptions. induction o as [|[k w] o IH]; simpl.
  - intros H. now apply elem_of_nil in H.
  - case_bool_decide as Hk; [exact IH|].
    intros H. apply elem_of_cons in H. destruct H as [->|H]; [exact Hk|now apply IH].
Qed.

Lemma poll_heartbeat st :
  NoDup (options st).*1 ->
  Ajax.search_param "heartbeat" (poll_request st)
  = Some (match Js.get "heartbeat" (options st) with
          | VUndefined => VJson (JNum 10000)
          | v => v
          end).
Proof.
  intros Hnd. unfold Ajax.search_param, poll_request. simpl sent. simpl search.
  rewrite find_encodeOptions by (apply (bool_decide_eq_false_1 _); reflexivity).
  destruct (since st); rewrite !assoc_set_ne by discriminate;
    (rewrite assoc_of_key
       by (apply extend_keeps_key; apply elem_of_cons; left; reflexivity));
    rewrite get_extend by exact Hnd; reflexivity.
Qed.

End PollQuery.

(** X16.  Every poll asks for [feed=longpoll] and, once the subscription
    holds a cursor, for [since] equal to it, whatever the caller's options
    hold under those names; the heartbeat is the caller's where given and
    10000 otherwise; and none of the handlers is written into the query. *)
Theorem poll_query_fixed_parameters (st : subscription) :
  Feed.reachable st ->
  Ajax.search_param "feed" (Feed.poll_request st) = Some (VJson (JStr "longpoll")) /\
  (since st <> VUndefined ->
   Ajax.search_param "since" (Feed.poll_request st) = Some (since st)) /\
  Ajax.search_param "heartbeat" (Feed.poll_request st)
    = Some (match Js.get "heartbeat" (options st) with
            | VUndefined => VJson (JNum 10000)
            | v => v
            end) /\
  (forall p, p ∈ search (sent (Feed.poll_request st)) -> pname p ∉ Ajax.handler_names).
Proof.
  intros Hr. pose proof (reachable_ok _ Hr) as [(o & Ho & E) _].
  split; [apply poll_request_is_poll|]. split; [apply poll_request_since|]. split.
  - apply poll_heartbeat. rewrite E. apply installed_NoDup. now apply caller_ok_NoDup.
  - intros p. apply encodeOptions_no_handlers.
Qed.

Lemma poll_query_fixed_parameters_witness :
  let st := (Feed.changes "http://h/db/" (VJson (JNum 5))
               (Some [("feed"%string, VJson (JStr "continuous"));
                      ("since"%string, VJson (JNum 0));
                      ("heartbeat"%string, VJson (JNum 2500))])).1.2 in
  Ajax.search_param "feed" (Feed.poll_request st) = Some (VJson (JStr "longpoll")) /\
  Ajax.search_param "since" (Feed.poll_request st) = Some (VJson (JNum 5)) /\
  Ajax.search_param "heartbeat" (Feed.poll_request st) = Some (VJson (JNum 2500)).
Proof.
  intros st.
  assert (Hr : Feed.reachable st).
  { exists "http://h/db/"%string, (VJson (JNum 5)),
      (Some [("feed"%string, VJson (JStr "continuous"));
             ("since"%string, VJson (JNum 0));
             ("heartbeat"%string, VJson (JNum 2500))]),
      st, [Sent (Feed.poll_request st)], [], [].
    split; [vm_compute; reflexivity|]. split; reflexivity. }
  destruct (poll_query_fixed_parameters st Hr) as (Hf & Hs & Hh & _).
  split; [exact Hf|]. split; [|exact Hh]. apply Hs. discriminate.
Defined.

(** ** More about [newUUID] and [bulkRemove] *)

Section CacheAndBulk.

Lemma mark_deleted_app before : forall rest (h h1 : gmap loc (gmap string json)),
  Bulk.mark_deleted before h = (Normal, h1) ->
  Bulk.mark_deleted (before ++ rest) h = Bulk.mark_deleted rest h1.
Proof.
  induction before as [|s before IH]; intros rest h h1 E; simpl in *.
  - now injection E as <-.
  - destruct s; try discriminate; eauto.
Qed.

End CacheAndBulk.

(** X17.  Identifiers in the cache are handed out in the order they were
    received, one per call, without any request: [n] calls on a cache of at
    least [n] identifiers return its first [n] and leave the rest. *)
Theorem cached_uuids_are_handed_out_in_order
    (urlPrefix : string) (cacheNum : option json) (server : request -> xhr * Z)
    (propagates : bool) (n : nat) (us : list json) :
  (n <= length us)%nat ->
  let calls := UuidSeq.draw n urlPrefix cacheNum server propagates (Some (JArr us)) in
  result <$> calls = (fun u => Returns (Some u)) <$> take n us /\
  Forall (fun r => fetched r = [] /\ reported r = []) calls /\
  default (Some (JArr us)) (cache_after <$> last calls) = Some (JArr (drop n us)).
Proof.
  revert us. induction n as [|n IH]; intros us Hn calls; subst calls.
  - simpl. rewrite drop_0. repeat split. constructor.
  - destruct us as [|u us]; [simpl in Hn; lia|].
    cbn [UuidSeq.draw]. rewrite newUUID_cached. cbn [cache_after].
    destruct (IH us ltac:(simpl in Hn; lia)) as (H1 & H2 & H3).
    split; [|split].
    + rewrite fmap_cons, H1. reflexivity.
    + constructor; [split; reflexivity|exact H2].
    + rewrite last_cons. cbn [drop].
      destruct (last (UuidSeq.draw n urlPrefix cacheNum server propagates (Some (JArr us))))
        as [r|] eqn:El; simpl in *; [exact H3|].
      apply last_None in El.
      destruct n; [now rewrite drop_0 in *|discriminate].
Qed.

Lemma cached_uuids_are_handed_out_in_order_witness :
  let server := fun _ : request => ({| status := 500; parsed := None |}, 1) in
  result <$> UuidSeq.draw 2 "http://h" None server true
               (Some (JArr [JStr "a1"; JStr "b2"; JStr "c3"]))
    = [Returns (Some (JStr "a1")); Returns (Some (JStr "b2"))].
Proof.
  intros server.
  refine (proj1 (cached_uuids_are_handed_out_in_order "http://h" None server true 2
                   [JStr "a1"; JStr "b2"; JStr "c3"] _)).
  simpl. lia.
Defined.

(** X18.  A response with status 200 whose body has no [uuids] property
    leaves the cache [undefined]: that call raises a TypeError, and so does
    every later call of [newUUID], without ever asking the server again. *)
Theorem response_without_uuids_poisons_cache
    (urlPrefix : string) (cacheNum : option json) (server : request -> xhr * Z)
    (propagates : bool) :
  let count := match cacheNum with None => JNum 1 | Some n => n end in
  Uuid.answered (server (Uuid.uuids_request urlPrefix count)).1 None ->
  let res := Uuid.newUUID urlPrefix cacheNum server propagates (Some (JArr [])) in
  result res = Throws TypeError /\ cache_after res = None /\
  forall urlPrefix' cacheNum' server' propagates',
    Uuid.newUUID urlPrefix' cacheNum' server' propagates' (cache_after res)
    = {| result := Throws TypeError; cache_after := None; fetched := [];
         reported := [] |}.
Proof.
  intros count Ha res. subst res.
  rewrite (newUUID_fetch_ok urlPrefix cacheNum server propagates None Ha).
  split; [reflexivity|]. split; reflexivity.
Qed.

Lemma response_without_uuids_poisons_cache_witness :
  let server := fun _ : request =>
    ({| status := 200; parsed := Some (JObj [("ok"%string, JBool true)]) |}, 2) in
  result (Uuid.newUUID "http://h" None server false (Some (JArr []))) = Throws TypeError.
Proof.
  intros server.
  refine (proj1 (response_without_uuids_poisons_cache "http://h" None server false _)).
  exists (JObj [("ok"%string, JBool true)]). split; [reflexivity|]. split; reflexivity.
Defined.

(** X19.  [bulkRemove] stops at the first element of [docs.docs] that is
    [null] or [undefined]: the documents before it are already marked in
    the caller's heap, no other object is touched (none of those after it),
    the options are left alone and no request is sent. *)
Theorem bulkRemove_stops_at_null
    (db_uri : string) (before after : list slot) (s : slot)
    (others : list (string * json)) (options : option object)
    (h : gmap loc (gmap string json)) :
  s = Null \/ s = Undefined ->
  Forall (fun s => s <> Undefined /\ s <> Null) before ->
  let res := Bulk.bulkRemove db_uri (before ++ s :: after) others options h in
  issued res = (Raised TypeError, []) /\ options_after res = options /\
  (forall l doc,
      Ref l ∈ before -> h !! l = Some doc ->
      heap_after res !! l = Some (<["_deleted"%string := JBool true]> doc)) /\
  (forall l, Ref l ∉ before -> heap_after res !! l = h !! l).
Proof.
  intros Hs Hok res. subst res. unfold Bulk.bulkRemove.
  destruct (mark_deleted_normal before h Hok) as (h1 & E).
  rewrite (mark_deleted_app before (s :: after) h h1 E).
  assert (Es : Bulk.mark_deleted (s :: after) h1 = (Raised TypeError, h1))
    by (destruct Hs; subst s; reflexivity).
  rewrite Es. simpl. split; [reflexivity|]. split; [reflexivity|]. split.
  - intros l doc Hl Hd. rewrite (mark_deleted_in _ _ _ _ E Hl), Hd. reflexivity.
  - intros l Hl. apply (mark_deleted_out _ _ _ _ _ E Hl).
Qed.

Lemma bulkRemove_stops_at_null_witness :
  let doc1 : gmap string json := {[ "_id"%string := JStr "a" ]} in
  let doc2 : gmap string json := {[ "_id"%string := JStr "b" ]} in
  let h : gmap loc (gmap string json) := {[ 1%positive := doc1; 2%positive := doc2 ]} in
  let res := Bulk.bulkRemove "http://h/db/" ([Ref 1%positive] ++ Null :: [Ref 2%positive]) []
               (Some []) h in
  issued res = (Raised TypeError, []) /\ heap_after res !! 2%positive = Some doc2.
Proof.
  intros doc1 doc2 h res.
  destruct (bulkRemove_stops_at_null "http://h/db/" [Ref 1%positive] [Ref 2%positive] Null
              [] (Some []) h) as (Hi & _ & _ & Hout).
  - now left.
  - repeat constructor; discriminate.
  - split; [exact Hi|].
    refine (eq_trans (Hout 2%positive _) _); [|reflexivity].
    intros Hin. apply elem_of_cons in Hin. destruct Hin as [Hin|Hin]; [discriminate|now apply elem_of_nil in Hin].
Defined.
